(** * APP_BE_MENTANA: the user entity, the repository port and the use cases

    A shallow embedding of the domain layer of the service
    (src/domain/src/entities/user.py, src/domain/src/repositories/user_repository.py,
    src/domain/src/use_cases/*.py), of the part of src/factories/user_factory.py
    that builds entities, and of the DynamoDB adapter as far as the use cases
    observe it.

    Python values are modelled as follows.
    - [str] is [string], read as the UTF-8 bytes of the text.  The e-mail
      pattern names ASCII characters only and every byte of a non-ASCII
      character is at least 128, so the pattern accepts the bytes exactly
      when Python accepts the text.  [strip()] and [lower()], which only
      the factory calls, are given for ASCII white space and ASCII capitals.
    - [UUID] is the 128-bit integer of the identifier, an [N].
    - [datetime] (always built with [timezone.utc]) is the number of
      microseconds since the epoch, a [Z].
    - [await] on a port method, [uuid4()] and [datetime.now(timezone.utc)] are
      calls to the outside: a use case is a tree of such calls ([prog]) and
      is run against a world that answers them. *)

From Stdlib Require Import ZArith NArith Ascii String List Bool Lia.
From stdpp Require Import base option list strings gmap.

Local Open Scope Z_scope.

(** ** Strings *)

Module Str.

(** [all p s]: every character of [s] satisfies [p]. *)
Fixpoint all (p : ascii -> bool) (s : string) : bool :=
  match s with
  | EmptyString => true
  | String c s' => p c && all p s'
  end.

(** [bool(s)] of a Python string: false exactly for the empty one. *)
Definition truthy (s : string) : bool :=
  match s with EmptyString => false | String _ _ => true end.

Definition code (c : ascii) : N := N_of_ascii c.

Definition in_range (lo hi c : ascii) : bool :=
  ((code lo <=? code c) && (code c <=? code hi))%N.

(** ASCII white space as [str.strip()] and [str.isspace()] see it:
    tab, line feed, vertical tab, form feed, carriage return, the four
    separators 28..31 and the space. *)
Definition is_space (c : ascii) : bool :=
  ((9 <=? code c) && (code c <=? 13) || (28 <=? code c) && (code c <=? 32))%N.

Definition is_upper (c : ascii) : bool := in_range "A" "Z" c.

(** [str.lower()] on one character; bytes outside A..Z are kept. *)
Definition lower_char (c : ascii) : ascii :=
  if is_upper c then ascii_of_N (code c + 32) else c.

Fixpoint lower (s : string) : string :=
  match s with
  | EmptyString => EmptyString
  | String c s' => String (lower_char c) (lower s')
  end.

Fixpoint lstrip (s : string) : string :=
  match s with
  | EmptyString => EmptyString
  | String c s' => if is_space c then lstrip s' else s
  end.

(** Dropping trailing white space: a character is kept when it is not
    white space or when something is kept after it. *)
Fixpoint rstrip (s : string) : string :=
  match s with
  | EmptyString => EmptyString
  | String c s' =>
      match rstrip s' with
      | EmptyString => if is_space c then EmptyString else String c EmptyString
      | r => String c r
      end
  end.

(** [s.strip()], for ASCII white space. *)
Definition strip (s : string) : string := rstrip (lstrip s).

End Str.

(** ** Regular expressions, as far as the e-mail pattern needs them

    Python's [re] is a backtracking matcher; [re.match] tries the pattern at
    position 0 only and does not ask that the whole input be consumed. *)

Module Re.

(** A bracket expression: ranges and single characters. *)
Record cls := Cls { ranges : list (ascii * ascii); singles : list ascii }.

Definition cls_ok (k : cls) (c : ascii) : bool :=
  existsb (fun r => Str.in_range (fst r) (snd r) c) (ranges k)
  || existsb (fun x => Ascii.eqb x c) (singles k).

Inductive node :=
| Bol                          (* ^ *)
| Eol                          (* $ *)
| Chr (c : ascii)              (* a literal character, as in \. and @ *)
| Rep (min : nat) (k : cls).   (* [..]{min,}, greedy; + is {1,} *)

(** [$] without [re.MULTILINE]: the end of the string, or just before a
    line feed that is the last character. *)
Definition at_eol (s : string) : bool :=
  match s with
  | EmptyString => true
  | String c EmptyString => Ascii.eqb c "010"
  | _ => false
  end.

(** [rep k a n pos s]: take characters of class [a] greedily, at least
    [n] of them, then go on with [k]; on failure give one back and retry. *)
Fixpoint rep (k : nat -> string -> bool) (a : cls) (n : nat) (pos : nat) (s : string) : bool :=
  match s with
  | String c s' =>
      if cls_ok a c
      then rep k a (Nat.pred n) (S pos) s' || (Nat.eqb n 0 && k pos s)
      else Nat.eqb n 0 && k pos s
  | EmptyString => Nat.eqb n 0 && k pos s
  end.

Fixpoint match_at (p : list node) (pos : nat) (s : string) : bool :=
  match p with
  | [] => true
  | Bol :: p' => Nat.eqb pos 0 && match_at p' pos s
  | Eol :: p' => at_eol s && match_at p' pos s
  | Chr c :: p' =>
      match s with
      | String x s' => Ascii.eqb c x && match_at p' (S pos) s'
      | EmptyString => false
      end
  | Rep n a :: p' => rep (match_at p') a n pos s
  end.

(** [re.match(p, s) is not None]. *)
Definition matches (p : list node) (s : string) : bool := match_at p 0%nat s.

End Re.

(** ** Identifiers and time stamps *)

Definition UUID := N.
Definition datetime := Z.

Module Uuid.

Definition hex_digit (d : N) : ascii :=
  if (d <? 10)%N then ascii_of_N (48 + d) else ascii_of_N (87 + d).

(** The [k] low-order hexadecimal digits of [n], most significant first,
    in front of [acc]. *)
Fixpoint hex (k : nat) (n : N) (acc : string) : string :=
  match k with
  | O => acc
  | S k' => hex k' (n / 16)%N (String (hex_digit (n mod 16)%N) acc)
  end.

(** [str(u)]: the 32 digits of ['%032x' % u.int] in groups of 8, 4, 4, 4
    and 12, with dashes between. *)
Definition str (u : UUID) : string :=
  hex 8 (N.shiftr u 96)
    (String "-" (hex 4 (N.shiftr u 80)
      (String "-" (hex 4 (N.shiftr u 64)
        (String "-" (hex 4 (N.shiftr u 48)
          (String "-" (hex 12 u EmptyString)))))))).

End Uuid.

(** ** The entity's data (src/domain/src/entities/user.py) *)

Module User.

Record t := Build {
  id : UUID;
  email : string;
  name : string;
  is_active : bool;
  created_at : datetime;
  updated_at : datetime
}.

#[export] Instance eq_dec : EqDecision t.
Proof. solve_decision. Defined.

End User.

Abbreviation User := User.t.

(** ** Exceptions (src/domain/src/exceptions/domain_exceptions.py)

    [ValueError] is what the factory raises, [Exception] what an adapter
    raises when the store fails. *)

Inductive exn :=
| InvalidUserDataException (msg : string)
| UserAlreadyExistsException (msg : string)
| UserNotFoundException (msg : string)
| ValueError (msg : string)
| Exception (msg : string).

(** ** Calls to the outside and programs over them *)

(** The seven methods of the port (src/domain/src/repositories/user_repository.py),
    [uuid4()] and [datetime.now(timezone.utc)], each with the type of its answer. *)
Inductive call : Type -> Type :=
| Save (user : User) : call User
| Find_by_id (user_id : UUID) : call (option User)
| Find_by_email (email : string) : call (option User)
| Find_all : call (list User)
| Find_active_users : call (list User)
| Delete_ (user_id : UUID) : call bool
| Update (user : User) : call User
| Uuid4 : call UUID
| Now : call datetime.

(** A call as it appears in the record of a run. *)
Inductive event :=
| ESave (user : User)
| EFind_by_id (user_id : UUID)
| EFind_by_email (email : string)
| EFind_all
| EFind_active_users
| EDelete (user_id : UUID)
| EUpdate (user : User)
| EUuid4
| ENow.

Definition event_of {X} (c : call X) : event :=
  match c with
  | Save u => ESave u
  | Find_by_id i => EFind_by_id i
  | Find_by_email e => EFind_by_email e
  | Find_all => EFind_all
  | Find_active_users => EFind_active_users
  | Delete_ i => EDelete i
  | Update u => EUpdate u
  | Uuid4 => EUuid4
  | Now => ENow
  end.

(** Reads and writes of the repository; [uuid4] and the clock are neither. *)
Definition is_read (e : event) : bool :=
  match e with
  | EFind_by_id _ | EFind_by_email _ | EFind_all | EFind_active_users => true
  | _ => false
  end.

Definition is_write (e : event) : bool :=
  match e with
  | ESave _ | EDelete _ | EUpdate _ => true
  | _ => false
  end.

Definition is_repo (e : event) : bool := is_read e || is_write e.

(** A program returns, raises, or makes a call and goes on with the answer. *)
Inductive prog (A : Type) : Type :=
| Ret (a : A)
| Raise (e : exn)
| Call {X : Type} (c : call X) (k : X -> prog A).

Arguments Ret {A} a.
Arguments Raise {A} e.
Arguments Call {A X} c k.

Fixpoint bind {A B} (m : prog A) (f : A -> prog B) : prog B :=
  match m with
  | Ret a => f a
  | Raise e => Raise e
  | Call c k => Call c (fun x => bind (k x) f)
  end.

#[export] Instance prog_ret : MRet prog := @Ret.
#[export] Instance prog_bind : MBind prog := fun A B f m => bind m f.

(** [await port.method(...)], [uuid4()], [datetime.now(timezone.utc)]. *)
Definition perform {X} (c : call X) : prog X := Call c Ret.

(** ** The entity's operations (src/domain/src/entities/user.py)

    A method that changes the object in place is a function to the changed
    object. *)

Module Entity.

(** [User(id, email, name, is_active, created_at, updated_at)]: the
    generated [__init__] followed by [__post_init__], which fills each
    field that is [None] on its own: [uuid4()] for the id, and one reading
    of the clock for [created_at], then another one for [updated_at]. *)
Definition init (id : option UUID) (email name : string) (is_active : bool)
    (created_at updated_at : option datetime) : prog User :=
  id ← match id with None => perform Uuid4 | Some i => mret i end;
  created_at ← match created_at with None => perform Now | Some t => mret t end;
  updated_at ← match updated_at with None => perform Now | Some t => mret t end;
  mret (User.Build id email name is_active created_at updated_at).

Definition update_name (self : User) (new_name : string) : prog User :=
  now ← perform Now;
  mret (User.Build (User.id self) (User.email self) new_name
          (User.is_active self) (User.created_at self) now).

Definition deactivate (self : User) : prog User :=
  now ← perform Now;
  mret (User.Build (User.id self) (User.email self) (User.name self)
          false (User.created_at self) now).

Definition activate (self : User) : prog User :=
  now ← perform Now;
  mret (User.Build (User.id self) (User.email self) (User.name self)
          true (User.created_at self) now).

(** The three mutations, and a sequence of them applied in order. *)
Inductive mutation :=
| UpdateName (new_name : string)
| Deactivate
| Activate.

Definition mutate (self : User) (m : mutation) : prog User :=
  match m with
  | UpdateName n => update_name self n
  | Deactivate => deactivate self
  | Activate => activate self
  end.

Fixpoint mutate_all (self : User) (ms : list mutation) : prog User :=
  match ms with
  | [] => mret self
  | m :: ms' => u ← mutate self m; mutate_all u ms'
  end.

(** The invariant of the data model. *)
Definition timestamps_ordered (u : User) : Prop :=
  User.created_at u <= User.updated_at u.

End Entity.

(** ** The factory's entity construction (src/factories/user_factory.py)

    The [logger.info] lines write a log and are left out. *)

Module UserFactory.

Definition create_user (email name : string) (is_active : bool) : prog User :=
  if negb (Str.truthy email) || negb (Str.truthy (Str.strip email))
  then Raise (ValueError "Email is required")
  else if negb (Str.truthy name) || negb (Str.truthy (Str.strip name))
  then Raise (ValueError "Name is required")
  else
    id ← perform Uuid4;
    created_at ← perform Now;
    updated_at ← perform Now;
    Entity.init (Some id) (Str.lower (Str.strip email)) (Str.strip name)
      is_active (Some created_at) (Some updated_at).

End UserFactory.

(** ** The use cases (src/domain/src/use_cases) *)

Module CreateUserUseCase.

Definition alnum : list (ascii * ascii) :=
  [("a", "z"); ("A", "Z"); ("0", "9")]%char.

(** [^[a-zA-Z0-9._%+-]+@[a-zA-Z0-9.-]+\.[a-zA-Z]{2,}$] *)
Definition pattern : list Re.node :=
  [ Re.Bol;
    Re.Rep 1 (Re.Cls alnum ["."; "_"; "%"; "+"; "-"]%char);
    Re.Chr "@";
    Re.Rep 1 (Re.Cls alnum ["."; "-"]%char);
    Re.Chr ".";
    Re.Rep 2 (Re.Cls [("a", "z"); ("A", "Z")]%char []);
    Re.Eol ].

Definition _is_valid_email (email : string) : bool :=
  Re.matches pattern email.

Definition execute (email name : string) : prog User :=
  if negb (Str.truthy email) || negb (Str.truthy name)
  then Raise (InvalidUserDataException "Email and name are required")
  else if negb (_is_valid_email email)
  then Raise (InvalidUserDataException "Invalid email")
  else
    existing_user ← perform (Find_by_email email);
    match existing_user with
    | Some _ => Raise (UserAlreadyExistsException "Email is already registered")
    | None =>
        id ← perform Uuid4;
        user ← Entity.init (Some id) email name true None None;
        saved_user ← perform (Save user);
        mret saved_user
    end.

End CreateUserUseCase.

Module GetUserUseCase.

Definition execute (user_id : UUID) : prog User :=
  user ← perform (Find_by_id user_id);
  match user with
  | None =>
      Raise (UserNotFoundException
               ("User with ID " +:+ Uuid.str user_id +:+ " not found"))
  | Some u => mret u
  end.

End GetUserUseCase.

Module GetAllUsersUseCase.

Definition execute : prog (list User) := perform Find_all.

End GetAllUsersUseCase.

(** ** The port and the world a program runs in *)

(** An implementation of the port over a store [S]: each method answers or
    raises ([inl], the message of the [Exception]) and leaves a store. *)
Class UserRepository (S : Type) := {
  save : User -> S -> (string + User) * S;
  find_by_id : UUID -> S -> (string + option User) * S;
  find_by_email : string -> S -> (string + option User) * S;
  find_all : S -> (string + list User) * S;
  find_active_users : S -> (string + list User) * S;
  delete : UUID -> S -> (string + bool) * S;
  update : User -> S -> (string + User) * S
}.

(** What the spec's port contract adds to the signatures.  The four lookups
    leave the store as it is. *)
Class LookupsKeepStore (S : Type) `{UserRepository S} : Prop := {
  find_by_id_pure : forall i s, snd (find_by_id i s) = s;
  find_by_email_pure : forall e s, snd (find_by_email e s) = s;
  find_all_pure : forall s, snd (find_all s) = s;
  find_active_users_pure : forall s, snd (find_active_users s) = s
}.

(** [Save(user) -> user]: when [Save] answers, it hands back the entity it
    was given. *)
Class SaveReturnsUser (S : Type) `{UserRepository S} : Prop := {
  save_returns_argument : forall u s u', fst (save u s) = inr u' -> u' = u
}.

(** The world: the store behind the port, the readings the clock will give
    and how many were taken, the identifiers [uuid4] will draw and how many
    were drawn. *)
Record World (S : Type) := MkWorld {
  store : S;
  ticks : nat -> datetime;
  tick : nat;
  draws : nat -> UUID;
  draw : nat
}.

Arguments MkWorld {S}.
Arguments store {S}.
Arguments ticks {S}.
Arguments tick {S}.
Arguments draws {S}.
Arguments draw {S}.

Section Run.

Context {S : Type} `{UserRepository S}.

Definition with_store (w : World S) (s : S) : World S :=
  MkWorld s (ticks w) (tick w) (draws w) (draw w).

Definition on_store {X} (f : S -> (string + X) * S) (w : World S)
    : (string + X) * World S :=
  let '(r, s) := f (store w) in (r, with_store w s).

(** The next reading of the clock and the next identifier. *)
Definition now (w : World S) : datetime := ticks w (tick w).
Definition next_uuid (w : World S) : UUID := draws w (draw w).

Definition handle {X} (c : call X) : World S -> (string + X) * World S :=
  match c in call X return World S -> (string + X) * World S with
  | Save u => on_store (save u)
  | Find_by_id i => on_store (find_by_id i)
  | Find_by_email e => on_store (find_by_email e)
  | Find_all => on_store find_all
  | Find_active_users => on_store find_active_users
  | Delete_ i => on_store (delete i)
  | Update u => on_store (update u)
  | Uuid4 => fun w =>
      (inr (next_uuid w),
       MkWorld (store w) (ticks w) (tick w) (draws w) (Datatypes.S (draw w)))
  | Now => fun w =>
      (inr (now w),
       MkWorld (store w) (ticks w) (Datatypes.S (tick w)) (draws w) (draw w))
  end.

(** Running a program: the result (a raised exception or a value), the
    world left behind, and the calls made, in order.  A call that raises
    ends the run with that exception. *)
Fixpoint run {A} (m : prog A) (w : World S) : (exn + A) * World S * list event :=
  match m with
  | Ret a => (inr a, w, [])
  | Raise e => (inl e, w, [])
  | Call c k =>
      match handle c w with
      | (inl msg, w') => (inl (Exception msg), w', [event_of c])
      | (inr x, w') =>
          let '(r, w'', t) := run (k x) w' in (r, w'', event_of c :: t)
      end
  end.

Definition result {A} (o : (exn + A) * World S * list event) : exn + A := o.1.1.
Definition world {A} (o : (exn + A) * World S * list event) : World S := o.1.2.
Definition trace {A} (o : (exn + A) * World S * list event) : list event := o.2.

(** The entity [CreateUser] builds in [w]: the next identifier and the next
    two readings of the clock. *)
Definition created (w : World S) (email name : string) : User :=
  User.Build (next_uuid w) email name true
    (ticks w (tick w)) (ticks w (Datatypes.S (tick w))).

(** The world once the lookup left the store [s], one identifier was drawn
    and the clock was read twice. *)
Definition after_construction (w : World S) (s : S) : World S :=
  MkWorld s (ticks w) (Datatypes.S (Datatypes.S (tick w))) (draws w)
    (Datatypes.S (draw w)).

Definition create_trace (w : World S) (email name : string) : list event :=
  [EFind_by_email email; EUuid4; ENow; ENow; ESave (created w email name)].

End Run.

(** ** The DynamoDB adapter (src/adapters/repositories/aws_dynamodb_user_repository.py)

    The table is a finite map from the key to the item's other attributes.
    The key is the identifier itself (the adapter writes it as [str(user.id)]
    and reads it back with [UUID(..)]); time stamps are kept as values (the
    adapter writes [isoformat()] and reads [fromisoformat(..)]).  Calls to
    the table answer at once and never fail; a scan goes through the items
    in the order of their keys and answers with its first page. *)

Module AWSDynamoDBUserRepository.

Record item := Item {
  a_email : option string;
  a_name : option string;
  a_is_active : option bool;
  a_created_at : option datetime;
  a_updated_at : option datetime
}.

Abbreviation table := (gmap UUID item).

Definition user_to_item (user : User) : item :=
  Item (Some (User.email user)) (Some (User.name user))
       (Some (User.is_active user)) (Some (User.created_at user))
       (Some (User.updated_at user)).

(** [item[key]]: the attribute, or the text of the [KeyError]. *)
Definition attr {A} (key : string) (a : option A) : string + A :=
  match a with
  | Some x => inr x
  | None => inl ("'" +:+ key +:+ "'")
  end.

(** [_item_to_user]: the time stamps are read first, then the other
    attributes in the order of the constructor's arguments.  A time stamp
    is an instant, as the ones the code makes with
    [datetime.now(timezone.utc)] are, so that [tzinfo] is never [None]
    here; the identifier and the time stamps are kept as values, not as the
    texts [str()] and [isoformat()] make of them. *)
Definition _item_to_user (id : UUID) (it : item) : string + User :=
  match attr "created_at" (a_created_at it) with
  | inl e => inl e
  | inr created_at =>
  match attr "updated_at" (a_updated_at it) with
  | inl e => inl e
  | inr updated_at =>
  match attr "email" (a_email it) with
  | inl e => inl e
  | inr email =>
  match attr "name" (a_name it) with
  | inl e => inl e
  | inr name =>
  match attr "is_active" (a_is_active it) with
  | inl e => inl e
  | inr is_active =>
      inr (User.Build id email name is_active created_at updated_at)
  end end end end end.

(** The loop [for item in response['Items']: users.append(..)]. *)
Fixpoint items_to_users (l : list (UUID * item)) : string + list User :=
  match l with
  | [] => inr []
  | (k, it) :: l' =>
      match _item_to_user k it with
      | inl e => inl e
      | inr u =>
          match items_to_users l' with
          | inl e => inl e
          | inr us => inr (u :: us)
          end
      end
  end.

(** [except Exception as e: raise Exception(f"<what>: {str(e)}")]. *)
Definition wrap {A} (what : string) (r : string + A) : string + A :=
  match r with
  | inl e => inl (what +:+ e)
  | inr x => inr x
  end.

Definition dynamo_save (user : User) (t : table) : (string + User) * table :=
  (inr user, <[User.id user := user_to_item user]> t).

Definition dynamo_find_by_id (user_id : UUID) (t : table)
    : (string + option User) * table :=
  match t !! user_id with
  | None => (inr None, t)
  | Some it =>
      (wrap "Error finding user by ID in DynamoDB: "
         (match _item_to_user user_id it with
          | inl e => inl e
          | inr u => inr (Some u)
          end), t)
  end.

(** The query on [email-index]: the items whose [email] attribute is the
    one asked for; the first of them is converted. *)
Definition dynamo_find_by_email (email : string) (t : table)
    : (string + option User) * table :=
  match List.filter (fun kv => bool_decide (a_email kv.2 = Some email))
          (map_to_list t) with
  | [] => (inr None, t)
  | (k, it) :: _ =>
      (wrap "Error finding user by email in DynamoDB: "
         (match _item_to_user k it with
          | inl e => inl e
          | inr u => inr (Some u)
          end), t)
  end.

(** What one call of [scan()] reads.  DynamoDB goes through the items of
    the table in an order of its own and answers with one page, of at most
    1 MB of them, and with a [LastEvaluatedKey] to go on from;
    [page_length l] is the number of items of [l], the items of the table
    in that order, that the first page reads. *)
Class Scan := { page_length : list (UUID * item) -> nat }.

Section OneScan.

Context `{Scan}.

(** [response['Items']] of the one [scan()] the code makes: it never looks
    at [LastEvaluatedKey], so it has the first page and no more. *)
Definition scan (t : table) : list (UUID * item) :=
  take (page_length (map_to_list t)) (map_to_list t).

Definition dynamo_find_all (t : table) : (string + list User) * table :=
  (wrap "Error finding all users in DynamoDB: "
     (items_to_users (scan t)), t).

(** The filter expression is applied to the items the page has read. *)
Definition dynamo_find_active_users (t : table) : (string + list User) * table :=
  (wrap "Error finding active users in DynamoDB: "
     (items_to_users
        (List.filter (fun kv => bool_decide (a_is_active kv.2 = Some true))
           (scan t))), t).

End OneScan.

(** [delete_item] is called without [ReturnValues], so its response
    holds no ['Attributes'] and the method answers [False]. *)
Definition dynamo_delete (user_id : UUID) (t : table) : (string + bool) * table :=
  (inr false, base.delete user_id t).

(** [update_item] sets three attributes of the item with that key, and
    makes an item of just these when there is none. *)
Definition dynamo_update (user : User) (t : table) : (string + User) * table :=
  let old := default (Item None None None None None) (t !! User.id user) in
  (inr user,
   <[User.id user :=
       Item (a_email old) (Some (User.name user)) (Some (User.is_active user))
            (a_created_at old) (Some (User.updated_at user))]> t).

#[export] Instance repository `{Scan} : UserRepository table := {|
  save := dynamo_save;
  find_by_id := dynamo_find_by_id;
  find_by_email := dynamo_find_by_email;
  find_all := dynamo_find_all;
  find_active_users := dynamo_find_active_users;
  delete := dynamo_delete;
  update := dynamo_update
|}.

#[export] Instance lookups_keep_store `{Scan} : LookupsKeepStore table.
Proof.
  split.
  - intros i s. simpl. unfold dynamo_find_by_id. now destruct (s !! i).
  - intros e s. simpl. unfold dynamo_find_by_email.
    now destruct (List.filter _ _) as [|[? ?] ?].
  - reflexivity.
  - reflexivity.
Qed.

#[export] Instance save_returns_user `{Scan} : SaveReturnsUser table.
Proof. split. intros u s u' E. simpl in E. congruence. Qed.

End AWSDynamoDBUserRepository.

(** ** Concrete worlds used in the examples *)

Module Sample.
Import AWSDynamoDBUserRepository.

(** A clock that advances by one microsecond between readings, and the
    identifiers 1, 2, 3, ... *)
Definition ticking (n : nat) : datetime := 1700000000000000 + Z.of_nat n.
Definition counting (n : nat) : UUID := N.of_nat (Datatypes.S n).

(** A clock that stands still. *)
Definition frozen (n : nat) : datetime := 1700000000000000.

(** A DynamoDB whose first page reads up to a thousand items. *)
#[export] Instance pages : Scan := {| page_length _ := 1000%nat |}.

Definition world_of (t : table) : World table := MkWorld t ticking 0 counting 0.

Definition empty : World table := world_of ∅.

Definition ann : User :=
  User.Build 77%N "a@b.com" "Ann" true 1600000000000000 1600000000000000.

(** A table that holds Ann. *)
Definition with_ann : World table :=
  world_of (<[User.id ann := user_to_item ann]> ∅).

End Sample.

(** ** Notions the properties are stated with *)

Module Spec.

(** The line feed, as a string. *)
Definition LF : string := String "010" EmptyString.

Definition is_letter (c : ascii) : bool :=
  Str.in_range "a" "z" c || Str.in_range "A" "Z" c.

Definition is_alnum (c : ascii) : bool :=
  is_letter c || Str.in_range "0" "9" c.

Definition one_of (l : list ascii) (c : ascii) : bool :=
  existsb (fun x => Ascii.eqb x c) l.

Definition local_char (c : ascii) : bool :=
  is_alnum c || one_of ["."; "_"; "%"; "+"; "-"]%char c.

Definition domain_char (c : ascii) : bool :=
  is_alnum c || one_of ["."; "-"]%char c.

(** The shape [local@domain.tld] in the spec's words: a local part of one
    or more ASCII letters, digits and [. _ % + -]; after the [@] a domain
    followed by a dot and a top-level domain of two or more ASCII letters.
    The spec does not list the characters of the domain; they are the
    pattern's (letters, digits, dot and hyphen). *)
Definition email_shape (s : string) : Prop :=
  exists local domain tld : string,
    s = local +:+ "@" +:+ domain +:+ "." +:+ tld /\
    local <> EmptyString /\ Str.all local_char local = true /\
    domain <> EmptyString /\ Str.all domain_char domain = true /\
    (2 <= String.length tld)%nat /\ Str.all is_letter tld = true.

Definition ends_with_LF (s : string) : Prop := exists s0, s = s0 +:+ LF.

(** [split_at c s]: the text before the first [c] and the text after it. *)
Fixpoint split_at (c : ascii) (s : string) : option (string * string) :=
  match s with
  | EmptyString => None
  | String x s' =>
      if Ascii.eqb x c then Some (EmptyString, s')
      else match split_at c s' with
           | Some (a, b) => Some (String x a, b)
           | None => None
           end
  end.

Definition has_no (c : ascii) (s : string) : Prop :=
  Str.all (fun x => negb (Ascii.eqb x c)) s = true.

(** The three malformed kinds the spec names: no [@] at all; nothing after
    the [@]; no dot after the [@]. *)
Definition missing_at (s : string) : Prop := split_at "@" s = None.

Definition missing_domain (s : string) : Prop :=
  exists l, split_at "@" s = Some (l, EmptyString).

Definition missing_tld (s : string) : Prop :=
  exists l d, split_at "@" s = Some (l, d) /\ has_no "." d.

(** Empty or white space only. *)
Definition blank (s : string) : Prop := Str.all Str.is_space s = true.

(** The normal form of an e-mail address: trimmed and lower-cased. *)
Definition normalized (s : string) : Prop := Str.lower (Str.strip s) = s.

(** The kinds of failure of the spec's taxonomy. *)
Definition invalid_input {A} (r : exn + A) : Prop :=
  match r with inl (InvalidUserDataException _) => True | _ => False end.

Definition already_exists {A} (r : exn + A) : Prop :=
  match r with inl (UserAlreadyExistsException _) => True | _ => False end.

Definition not_found {A} (r : exn + A) : Prop :=
  match r with inl (UserNotFoundException _) => True | _ => False end.

(** Counting the reads and the writes of a run. *)
Definition reads (t : list event) : nat := length (List.filter is_read t).
Definition writes (t : list event) : nat := length (List.filter is_write t).

(** A clock that never runs backwards. *)
Definition clock_monotone {S} (w : World S) : Prop :=
  forall n m : nat, (n <= m)%nat -> ticks w n <= ticks w m.

End Spec.

(** ** Tables whose items hold every attribute *)

Module Table.
Import AWSDynamoDBUserRepository.

(** An item as [save] writes it: the five attributes are all there. *)
Definition complete (it : item) : bool :=
  match it with
  | Item (Some _) (Some _) (Some _) (Some _) (Some _) => true
  | _ => false
  end.

Definition well_formed (t : table) : Prop :=
  forall k it, t !! k = Some it -> complete it = true.

(** [holds t u]: the item stored under the identifier of [u] is the one
    [save] writes for [u]. *)
Definition holds (t : table) (u : User) : Prop :=
  t !! User.id u = Some (user_to_item u).

(** The table is small enough for one [scan()] to read it to the end. *)
Definition one_page `{Scan} (t : table) : Prop :=
  (size t <= page_length (map_to_list t))%nat.

End Table.

(** ** More sample values *)

Module Sample2.

(** Ann's identifier with other fields, and Bob. *)
Definition ann2 : User :=
  User.Build 77%N "ann@b.com" "Ann B" false 1600000000000000 1650000000000000.

Definition bob : User :=
  User.Build 78%N "bob@b.com" "Bob" true 1610000000000000 1610000000000000.

End Sample2.

(** ** What a sequence of mutations comes to *)

Module Mutations.

(** The name after the mutations [ms]: the argument of the last
    [UpdateName], or the name before when there is none. *)
Definition name_after (ms : list Entity.mutation) (name : string) : string :=
  fold_left
    (fun n m => match m with Entity.UpdateName x => x | _ => n end) ms name.

(** The flag after the mutations [ms]: set by the last [Activate] or
    [Deactivate], or the flag before when there is none. *)
Definition active_after (ms : list Entity.mutation) (is_active : bool) : bool :=
  fold_left
    (fun a m =>
       match m with
       | Entity.Activate => true
       | Entity.Deactivate => false
       | Entity.UpdateName _ => a
       end) ms is_active.

(** The world after [n] more readings of the clock. *)
Definition later {S} (w : World S) (n : nat) : World S :=
  MkWorld (store w) (ticks w) (tick w + n) (draws w) (draw w).

End Mutations.

(** ** More of Python's strings *)

Module PyStr.

(** [c in s], for a single character [c]. *)
Fixpoint contains (c : ascii) (s : string) : bool :=
  match s with
  | EmptyString => false
  | String x s' => Ascii.eqb x c || contains c s'
  end.

(** A byte that continues a UTF-8 character: 128..191. *)
Definition is_continuation (c : ascii) : bool :=
  ((128 <=? Str.code c) && (Str.code c <=? 191))%N.

(** [len(s)]: the number of characters, that is of the bytes that do not
    continue one. *)
Fixpoint len (s : string) : nat :=
  match s with
  | EmptyString => 0
  | String c s' => if is_continuation c then len s' else Datatypes.S (len s')
  end.

(** [sep.join(l)]. *)
Fixpoint join (sep : string) (l : list string) : string :=
  match l with
  | [] => EmptyString
  | [x] => x
  | x :: l' => x +:+ sep +:+ join sep l'
  end.

(** Text of ASCII characters only; on it [Str.strip] and [Str.lower] are
    Python's [strip()] and [lower()]. *)
Definition is_ascii (s : string) : Prop :=
  Str.all (fun c => (Str.code c <? 128)%N) s = true.

End PyStr.

(** ** The rest of the factory (src/factories/user_factory.py) *)

Module UserFactoryData.

(** The value a dict holds under ["is_active"]: [None], a bool, or
    something else. *)
Inductive pyval := PNone | PBool (b : bool) | POther.

(** The dict [validate_user_data] reads: each key may be missing; the
    values under ["email"] and ["name"] are strings. *)
Record user_data := UserData {
  d_email : option string;
  d_name : option string;
  d_is_active : option pyval
}.

(** The dict it returns, which has the three keys. *)
Record cleaned_data := Cleaned {
  c_email : string;
  c_name : string;
  c_is_active : bool
}.

Definition email_errors (email : string) : list string :=
  if negb (Str.truthy email) then ["Email is required"]
  else if negb (PyStr.contains "@" email) then ["Invalid email format"]
  else [].

Definition name_errors (name : string) : list string :=
  if negb (Str.truthy name) then ["Name is required"]
  else if (PyStr.len name <? 2)%nat then ["Name must be at least 2 characters long"]
  else [].

(** [user_data.get("is_active")] is [None] for a missing key too. *)
Definition is_active_errors (is_active : option pyval) : list string :=
  match is_active with
  | Some POther => ["is_active must be a boolean"]
  | _ => []
  end.

(** [is_active if is_active is not None else True]. *)
Definition is_active_value (is_active : option pyval) : bool :=
  match is_active with
  | Some (PBool b) => b
  | _ => true
  end.

Definition validate_user_data (d : user_data) : exn + cleaned_data :=
  let email := Str.strip (default EmptyString (d_email d)) in
  let name := Str.strip (default EmptyString (d_name d)) in
  let errors :=
    email_errors email ++ name_errors name ++ is_active_errors (d_is_active d) in
  match errors with
  | [] => inr (Cleaned (Str.lower email) name (is_active_value (d_is_active d)))
  | _ => inl (ValueError ("Validation errors: " +:+ PyStr.join ", " errors))
  end.

(** A dict with the three keys of a cleaned one. *)
Definition as_user_data (c : cleaned_data) : user_data :=
  UserData (Some (c_email c)) (Some (c_name c)) (Some (PBool (c_is_active c))).

(** [create_user_from_dict], for a dict whose ["is_active"], when the key
    is there, is a bool.  A missing ["email"] or ["name"] is [None], which
    [create_user] rejects like the empty string; a missing ["is_active"]
    is [True]. *)
Definition create_user_from_dict (email name : option string)
    (is_active : option bool) : prog User :=
  UserFactory.create_user (default EmptyString email) (default EmptyString name)
    (default true is_active).

Section WithUUID.

(** [UUID(user_id)]: the identifier the text stands for, [None] where
    Python raises [ValueError]. *)
Variable UUID_of : string -> option UUID.

(** [created_at or now]: a [datetime] is never false. *)
Definition create_user_with_id (user_id email name : string) (is_active : bool)
    (created_at updated_at : option datetime) : prog User :=
  if negb (Str.truthy email) || negb (Str.truthy (Str.strip email))
  then Raise (ValueError "Email is required")
  else if negb (Str.truthy name) || negb (Str.truthy (Str.strip name))
  then Raise (ValueError "Name is required")
  else
    match UUID_of user_id with
    | None => Raise (ValueError "Invalid user ID format")
    | Some parsed_id =>
        now ← perform Now;
        Entity.init (Some parsed_id) (Str.lower (Str.strip email)) (Str.strip name)
          is_active (Some (default now created_at)) (Some (default now updated_at))
    end.

End WithUUID.

End UserFactoryData.

(** ** The HTTP endpoints (src/api/src/routers/user_router.py)

    An endpoint awaits one use case inside [try]; its [except] clauses turn
    what the use case raised into an [HTTPException].  The request has
    passed the framework's validation when the endpoint runs; logging is
    left out. *)

Module UserRouter.

Record HTTPException := Http { status_code : nat; detail : string }.

(** A response: the status of the route and the body.  A [UserResponse]
    has the six fields of the entity. *)
Record Response (A : Type) := Answer { status : nat; body : A }.

Arguments Answer {A}.
Arguments status {A}.
Arguments body {A}.

Record UserListResponse := ListResponse {
  users : list User;
  total : nat;
  page : nat;
  size : nat
}.

Section Endpoints.

Context {S : Type} `{UserRepository S}.

(** [UUID(user_id)], as in the factory. *)
Variable UUID_of : string -> option UUID.

(** [POST /users]. *)
Definition create_user (email name : string) (w : World S)
    : (HTTPException + Response User) * World S * list event :=
  let '(r, w', t) := run (CreateUserUseCase.execute email name) w in
  (match r with
   | inr user => inr (Answer 201 user)
   | inl (InvalidUserDataException msg) => inl (Http 400 msg)
   | inl (UserAlreadyExistsException msg) => inl (Http 400 msg)
   | inl _ => inl (Http 500 "Internal server error")
   end, w', t).

(** [GET /users/{user_id}]. *)
Definition get_user (user_id : string) (w : World S)
    : (HTTPException + Response User) * World S * list event :=
  match UUID_of user_id with
  | None => (inl (Http 400 "Invalid user ID"), w, [])
  | Some parsed =>
      let '(r, w', t) := run (GetUserUseCase.execute parsed) w in
      (match r with
       | inr user => inr (Answer 200 user)
       | inl (UserNotFoundException msg) => inl (Http 404 msg)
       | inl (ValueError _) => inl (Http 400 "Invalid user ID")
       | inl _ => inl (Http 500 "Internal server error")
       end, w', t)
  end.

(** [GET /users]. *)
Definition get_users (w : World S)
    : (HTTPException + Response UserListResponse) * World S * list event :=
  let '(r, w', t) := run GetAllUsersUseCase.execute w in
  (match r with
   | inr us => inr (Answer 200 (ListResponse us (length us) 1 (length us)))
   | inl _ => inl (Http 500 "Internal server error")
   end, w', t).

End Endpoints.

End UserRouter.

(** ** The file storage service (src/adapters/services/aws_s3_service.py) *)

Module S3.

(** The calls the service makes on the boto3 client, over a store [B];
    [inl] is the text of the exception a call raises.  [upload_fileobj]
    takes the content, the bucket, the key and the [ContentType] of
    [ExtraArgs], if any. *)
Class S3Client (B : Type) := {
  upload_fileobj : string -> string -> string -> option string -> B -> (string + unit) * B;
  delete_object : string -> string -> B -> (string + unit) * B;
  head_object : string -> string -> B -> (string + unit) * B
}.

(** A call as recorded: the operation and the key. *)
Inductive s3call :=
| UploadFileobj (key : string)
| DeleteObject (key : string)
| HeadObject (key : string).

Definition url (bucket_name key : string) : string :=
  "https://" +:+ bucket_name +:+ ".s3.amazonaws.com/" +:+ key.

Section Service.

Context {B : Type} `{S3Client B}.

(** The bucket the service was built for. *)
Variable bucket_name : string.

(** [if content_type: extra_args['ContentType'] = content_type]. *)
Definition extra_args (content_type : option string) : option string :=
  match content_type with
  | Some ct => if Str.truthy ct then Some ct else None
  | None => None
  end.

Definition upload_file (key content : string) (content_type : option string) (b : B)
    : (exn + string) * B * list s3call :=
  match upload_fileobj content bucket_name key (extra_args content_type) b with
  | (inr _, b') => (inr (url bucket_name key), b', [UploadFileobj key])
  | (inl e, b') =>
      (inl (Exception ("Error uploading file to S3: " +:+ e)), b', [UploadFileobj key])
  end.

Definition get_file_url (key : string) (b : B) : (exn + string) * B * list s3call :=
  (inr (url bucket_name key), b, []).


(** [except Exception: return False]. *)
Definition file_exists (key : string) (b : B) : (exn + bool) * B * list s3call :=
  match head_object bucket_name key b with
  | (inr _, b') => (inr true, b', [HeadObject key])
  | (inl _, b') => (inr false, b', [HeadObject key])
  end.

End Service.

(** An S3 held in memory: the objects by bucket and key, each with its
    content and content type.  An upload puts the object, a delete removes
    it and succeeds whether it was there or not, and [head_object] raises
    for a key that is not there. *)
Abbreviation objects := (gmap (string * string) (string * option string)).

#[export] Instance memory : S3Client objects := {|
  upload_fileobj content bucket key ct b := (inr tt, <[(bucket, key) := (content, ct)]> b);
  delete_object bucket key b := (inr tt, base.delete (bucket, key) b);
  head_object bucket key b :=
    match b !! (bucket, key) with
    | Some _ => (inr tt, b)
    | None =>
        (inl "An error occurred (404) when calling the HeadObject operation: Not Found", b)
    end
|}.

(** An S3 that cannot be reached: every call raises. *)
Inductive unreachable := Unreachable.

#[export] Instance no_endpoint : S3Client unreachable := {|
  upload_fileobj _ _ _ _ b := (inl "Could not connect to the endpoint URL", b);
  delete_object _ _ b := (inl "Could not connect to the endpoint URL", b);
  head_object _ _ b := (inl "Could not connect to the endpoint URL", b)
|}.

End S3.

(** ** The caching factories (src/factories/repository_factory.py,
    src/factories/use_case_factory.py)

    An object is told apart from the others by the address it was made at.
    The class attributes of the two factories and the table name of the
    settings make the state; making an adapter or a use case does not fail. *)

Module Factories.

Record Repository := Repo { repo_addr : nat; table_name : string }.

Inductive kind := CreateUser | GetUser | GetAllUsers.

Record UseCase := UC { uc_addr : nat; uc_kind : kind; user_repository : Repository }.

Record state := St {
  aws_dynamodb_table : option string;
  _user_repository_instance : option Repository;
  _create_user_use_case_instance : option UseCase;
  _get_user_use_case_instance : option UseCase;
  _get_all_users_use_case_instance : option UseCase;
  next_addr : nat
}.

(** A table name that is neither [None] nor empty. *)
Definition configured (name : option string) : option string :=
  match name with
  | Some n => if Str.truthy n then Some n else None
  | None => None
  end.

Definition with_repository (st : state) (r : option Repository) (next : nat) : state :=
  St (aws_dynamodb_table st) r (_create_user_use_case_instance st)
     (_get_user_use_case_instance st) (_get_all_users_use_case_instance st) next.

Definition instance_of (k : kind) (st : state) : option UseCase :=
  match k with
  | CreateUser => _create_user_use_case_instance st
  | GetUser => _get_user_use_case_instance st
  | GetAllUsers => _get_all_users_use_case_instance st
  end.

Definition with_instance (k : kind) (st : state) (uc : option UseCase) (next : nat) : state :=
  match k with
  | CreateUser =>
      St (aws_dynamodb_table st) (_user_repository_instance st) uc
         (_get_user_use_case_instance st) (_get_all_users_use_case_instance st) next
  | GetUser =>
      St (aws_dynamodb_table st) (_user_repository_instance st)
         (_create_user_use_case_instance st) uc
         (_get_all_users_use_case_instance st) next
  | GetAllUsers =>
      St (aws_dynamodb_table st) (_user_repository_instance st)
         (_create_user_use_case_instance st) (_get_user_use_case_instance st) uc next
  end.

Module RepositoryFactory.

Definition create_user_repository (st : state) : (exn + Repository) * state :=
  match _user_repository_instance st with
  | Some r => (inr r, st)
  | None =>
      match configured (aws_dynamodb_table st) with
      | None => (inl (ValueError "AWS DynamoDB table name not configured"), st)
      | Some name =>
          let r := Repo (next_addr st) name in
          (inr r, with_repository st (Some r) (Datatypes.S (next_addr st)))
      end
  end.

Definition get_user_repository (st : state) : (exn + Repository) * state :=
  create_user_repository st.

Definition reset_user_repository (st : state) : state :=
  with_repository st None (next_addr st).

(** [kwargs.get("table_name", settings.aws_dynamodb_table)]: [table_name]
    is the keyword argument when it was passed. *)
Definition create_repository_by_type (repository_type : string)
    (table_name : option string) (st : state) : (exn + Repository) * state :=
  if String.eqb (Str.lower repository_type) "dynamodb" then
    match configured (match table_name with
                      | Some n => Some n
                      | None => aws_dynamodb_table st
                      end) with
    | None => (inl (ValueError "Table name is required for DynamoDB repository"), st)
    | Some name =>
        (inr (Repo (next_addr st) name),
         with_repository st (_user_repository_instance st) (Datatypes.S (next_addr st)))
    end
  else if String.eqb (Str.lower repository_type) "memory" then
    (inl (ValueError "Memory repository not yet implemented"), st)
  else
    (inl (ValueError ("Unsupported repository type: " +:+ repository_type)), st).

End RepositoryFactory.

Module UseCaseFactory.

(** The body the three [create_..._use_case] methods share, for the use
    case of kind [k]. *)
Definition create_cached (k : kind) (user_repository : option Repository) (st : state)
    : (exn + UseCase) * state :=
  match instance_of k st with
  | Some uc => (inr uc, st)
  | None =>
      match (match user_repository with
             | Some r => (inr r, st)
             | None => RepositoryFactory.get_user_repository st
             end) with
      | (inl e, st1) => (inl e, st1)
      | (inr r, st1) =>
          let uc := UC (next_addr st1) k r in
          (inr uc, with_instance k st1 (Some uc) (Datatypes.S (next_addr st1)))
      end
  end.

Definition create_create_user_use_case := create_cached CreateUser.
Definition create_get_user_use_case := create_cached GetUser.
Definition create_get_all_users_use_case := create_cached GetAllUsers.

Definition get_create_user_use_case := create_create_user_use_case None.
Definition get_get_user_use_case := create_get_user_use_case None.
Definition get_get_all_users_use_case := create_get_all_users_use_case None.

Definition reset_create_user_use_case (st : state) : state :=
  with_instance CreateUser st None (next_addr st).
Definition reset_get_user_use_case (st : state) : state :=
  with_instance GetUser st None (next_addr st).
Definition reset_get_all_users_use_case (st : state) : state :=
  with_instance GetAllUsers st None (next_addr st).

Definition reset_all_use_cases (st : state) : state :=
  reset_get_all_users_use_case (reset_get_user_use_case (reset_create_user_use_case st)).

(** One [try: use_cases[key] = create() except Exception: ...] of
    [create_all_use_cases]. *)
Definition try_add (key : string) (create : state -> (exn + UseCase) * state)
    (acc : list (string * UseCase) * state) : list (string * UseCase) * state :=
  match create acc.2 with
  | (inr uc, st) => (acc.1 ++ [(key, uc)], st)
  | (inl _, st) => (acc.1, st)
  end.

(** The dict it returns, as the list of its entries in the order they were
    put. *)
Definition create_all_use_cases (st : state) : list (string * UseCase) * state :=
  try_add "get_all_users" (create_get_all_users_use_case None)
    (try_add "get_user" (create_get_user_use_case None)
       (try_add "create_user" (create_create_user_use_case None) ([], st))).

(** [create_use_case_with_repository]: a use case over a repository made
    for it, neither of them cached. *)
Definition create_use_case_with_repository (use_case_type repository_type : string)
    (table_name : option string) (st : state) : (exn + UseCase) * state :=
  let make (k : kind) :=
    match RepositoryFactory.create_repository_by_type repository_type table_name st with
    | (inl e, st1) => (inl e, st1)
    | (inr r, st1) =>
        (inr (UC (next_addr st1) k r),
         with_repository st1 (_user_repository_instance st1) (Datatypes.S (next_addr st1)))
    end in
  if String.eqb (Str.lower use_case_type) "create_user" then make CreateUser
  else if String.eqb (Str.lower use_case_type) "get_user" then make GetUser
  else if String.eqb (Str.lower use_case_type) "get_all_users" then make GetAllUsers
  else (inl (ValueError ("Unsupported use case type: " +:+ use_case_type)), st).

End UseCaseFactory.

End Factories.

(** ** Samples for the factories *)

Module FactorySample.
Import Factories.

(** The factories at start-up, with the table name "users" configured. *)
Definition start : state := St (Some "users") None None None None 0.

(** The factories once the repository has been asked for. *)
Definition with_repository_cached : state :=
  (RepositoryFactory.create_user_repository start).2.

(** A repository made elsewhere. *)
Definition other : Repository := Repo 100 "other".

(** A reading of identifiers that knows the text of identifier 77 only. *)
Definition uuid_of (text : string) : option UUID :=
  if String.eqb text (Uuid.str 77%N) then Some 77%N else None.

End FactorySample.

(** * Facts about the definitions *)

(** ** Strings *)

Module StrFacts.
Import Str.

Lemma truthy_true s : truthy s = true <-> s <> EmptyString.
Proof. destruct s; simpl; split; congruence. Qed.

Lemma truthy_false s : truthy s = false <-> s = EmptyString.
Proof. destruct s; simpl; split; congruence. Qed.

Lemma append_nil_l (s : string) : "" +:+ s = s.
Proof. reflexivity. Qed.

Lemma append_cons c (a b : string) : String c a +:+ b = String c (a +:+ b).
Proof. reflexivity. Qed.

Lemma append_nil_r (s : string) : s +:+ "" = s.
Proof.
  induction s as [|c s IH]; [reflexivity |].
  now rewrite append_cons, IH.
Qed.

Lemma append_assoc (a b c : string) : (a +:+ b) +:+ c = a +:+ (b +:+ c).
Proof.
  induction a as [|x a IH]; [reflexivity |].
  now rewrite !append_cons, IH.
Qed.

Lemma length_append (a b : string) :
  String.length (a +:+ b) = (String.length a + String.length b)%nat.
Proof.
  induction a as [|x a IH]; [reflexivity |].
  rewrite append_cons. simpl. now rewrite IH.
Qed.

Lemma all_append p (a b : string) : all p (a +:+ b) = all p a && all p b.
Proof.
  induction a as [|x a IH]; [reflexivity |].
  rewrite append_cons. simpl. rewrite IH. now rewrite andb_assoc.
Qed.

End StrFacts.

(** ** Repetition in a pattern *)

Module ReFacts.
Import Re.

(** What a repetition accepts: a prefix of at least [n] characters of the
    class, after which the rest of the pattern accepts the remainder. *)
Lemma rep_spec k a n pos s :
  rep k a n pos s = true <->
  exists pre rest,
    s = pre +:+ rest /\ (n <= String.length pre)%nat /\
    Str.all (cls_ok a) pre = true /\ k (pos + String.length pre)%nat rest = true.
Proof.
  revert n pos. induction s as [|c s IH]; intros n pos; simpl.
  - rewrite andb_true_iff, Nat.eqb_eq. split.
    + intros [-> Hk]. exists EmptyString, EmptyString. simpl.
      rewrite Nat.add_0_r. auto.
    + intros (pre & rest & E & Hn & _ & Hk).
      destruct pre as [|x pre]; [| discriminate E].
      rewrite StrFacts.append_nil_l in E. subst rest. simpl in Hn, Hk.
      rewrite Nat.add_0_r in Hk. split; [lia | exact Hk].
  - destruct (cls_ok a c) eqn:Hc.
    + rewrite orb_true_iff, andb_true_iff, Nat.eqb_eq, IH. split.
      * intros [(pre & rest & -> & Hn & Hall & Hk) | [-> Hk]].
        -- exists (String c pre), rest. simpl. rewrite Hc, Hall.
           rewrite Nat.add_succ_r. repeat split; auto; lia.
        -- exists EmptyString, (String c s). simpl.
           rewrite Nat.add_0_r. auto.
      * intros (pre & rest & E & Hn & Hall & Hk).
        destruct pre as [|x pre].
        -- right. rewrite StrFacts.append_nil_l in E. subst rest.
           simpl in Hn, Hk. rewrite Nat.add_0_r in Hk.
           split; [lia | exact Hk].
        -- left. rewrite StrFacts.append_cons in E. injection E as <- ->.
           simpl in Hall, Hn, Hk. apply andb_true_iff in Hall as [_ Hall].
           rewrite Nat.add_succ_r in Hk.
           exists pre, rest. repeat split; auto; lia.
    + rewrite andb_true_iff, Nat.eqb_eq. split.
      * intros [-> Hk]. exists EmptyString, (String c s). simpl.
        rewrite Nat.add_0_r. auto.
      * intros (pre & rest & E & Hn & Hall & Hk).
        destruct pre as [|x pre].
        -- rewrite StrFacts.append_nil_l in E. subst rest.
           simpl in Hn, Hk. rewrite Nat.add_0_r in Hk.
           split; [lia | exact Hk].
        -- rewrite StrFacts.append_cons in E. injection E as <- ->.
           simpl in Hall. rewrite Hc in Hall. discriminate Hall.
Qed.

End ReFacts.

(** ** The text of an identifier *)

Module UuidFacts.
Import Uuid.

Lemma length_hex k n acc :
  String.length (hex k n acc) = (k + String.length acc)%nat.
Proof.
  revert n acc. induction k as [|k IH]; intros n acc; simpl; [reflexivity |].
  rewrite IH. simpl. lia.
Qed.

Lemma length_str u : String.length (str u) = 36%nat.
Proof. unfold str. repeat (rewrite length_hex; simpl). reflexivity. Qed.

Lemma str_nonempty u : str u <> EmptyString.
Proof.
  intros E. pose proof (length_str u) as L. rewrite E in L. discriminate L.
Qed.

End UuidFacts.

(** ** The e-mail pattern and the shape it stands for *)

Module EmailFacts.
Import Spec CreateUserUseCase Re.

Lemma all_ext (p q : ascii -> bool) s :
  (forall c, p c = q c) -> Str.all p s = Str.all q s.
Proof.
  intros E. induction s as [|c s IH]; simpl; [reflexivity |].
  now rewrite E, IH.
Qed.

(** The three bracket expressions of the pattern are the character sets of
    the spec, checked on each of the 256 bytes. *)
Lemma local_class c :
  cls_ok (Cls alnum ["."; "_"; "%"; "+"; "-"]%char) c = local_char c.
Proof. destruct c as [[] [] [] [] [] [] [] []]; reflexivity. Qed.

Lemma domain_class c :
  cls_ok (Cls alnum ["."; "-"]%char) c = domain_char c.
Proof. destruct c as [[] [] [] [] [] [] [] []]; reflexivity. Qed.

Lemma letter_class c :
  cls_ok (Cls [("a", "z"); ("A", "Z")]%char []) c = is_letter c.
Proof. destruct c as [[] [] [] [] [] [] [] []]; reflexivity. Qed.

Lemma match_chr c p pos s :
  match_at (Chr c :: p) pos s = true <->
  exists s', s = String c s' /\ match_at p (S pos) s' = true.
Proof.
  simpl. destruct s as [|x s].
  - split; [discriminate | intros (s' & E & _); discriminate E].
  - rewrite andb_true_iff, Ascii.eqb_eq. split.
    + intros [-> Hk]. eauto.
    + intros (s' & E & Hk). injection E as -> ->. auto.
Qed.

Lemma match_rep n a p pos s :
  match_at (Rep n a :: p) pos s = true <->
  exists pre rest,
    s = pre +:+ rest /\ (n <= String.length pre)%nat /\
    Str.all (cls_ok a) pre = true /\
    match_at p (pos + String.length pre)%nat rest = true.
Proof. simpl. apply ReFacts.rep_spec. Qed.

Lemma match_eol pos s :
  match_at [Eol] pos s = true <-> s = EmptyString \/ s = LF.
Proof.
  simpl. rewrite andb_true_r. unfold at_eol, LF.
  destruct s as [|c [|d s]].
  - split; auto.
  - rewrite Ascii.eqb_eq. split.
    + intros ->. auto.
    + intros [E | E]; [discriminate E | now injection E].
  - split; [discriminate | intros [E | E]; discriminate E].
Qed.

Lemma nonempty_length (s : string) : (1 <= String.length s)%nat <-> s <> EmptyString.
Proof.
  destruct s; simpl; split; try congruence; lia.
Qed.

(** What the pattern accepts: the shape, with an optional line feed after
    the top-level domain (the [$] of the pattern). *)
Lemma is_valid_email_parts s :
  _is_valid_email s = true <->
  exists local domain tld nl : string,
    s = local +:+ "@" +:+ domain +:+ "." +:+ tld +:+ nl /\
    local <> EmptyString /\ Str.all local_char local = true /\
    domain <> EmptyString /\ Str.all domain_char domain = true /\
    (2 <= String.length tld)%nat /\ Str.all is_letter tld = true /\
    (nl = EmptyString \/ nl = LF).
Proof.
  unfold _is_valid_email, matches, pattern.
  change (match_at (Bol :: ?p) 0 s) with (match_at p 0 s).
  split.
  - intros M.
    apply match_rep in M as (local & r1 & -> & L1 & A1 & M).
    apply match_chr in M as (r2 & -> & M).
    apply match_rep in M as (domain & r3 & -> & L2 & A2 & M).
    apply match_chr in M as (r4 & -> & M).
    apply match_rep in M as (tld & nl & -> & L3 & A3 & M).
    apply match_eol in M.
    exists local, domain, tld, nl.
    rewrite (all_ext _ _ _ local_class) in A1.
    rewrite (all_ext _ _ _ domain_class) in A2.
    rewrite (all_ext _ _ _ letter_class) in A3.
    apply nonempty_length in L1, L2.
    repeat split; auto.
  - intros (local & domain & tld & nl & -> & L1 & A1 & L2 & A2 & L3 & A3 & E).
    apply match_rep. exists local, ("@" +:+ domain +:+ "." +:+ tld +:+ nl).
    rewrite (all_ext _ _ _ local_class).
    apply nonempty_length in L1, L2.
    repeat split; auto.
    apply match_chr. exists (domain +:+ "." +:+ tld +:+ nl). split; [reflexivity |].
    apply match_rep. exists domain, ("." +:+ tld +:+ nl).
    rewrite (all_ext _ _ _ domain_class).
    repeat split; auto.
    apply match_chr. exists (tld +:+ nl). split; [reflexivity |].
    apply match_rep. exists tld, nl.
    rewrite (all_ext _ _ _ letter_class).
    repeat split; auto.
    now apply match_eol.
Qed.

Lemma shape_is_valid s : email_shape s -> _is_valid_email s = true.
Proof.
  intros (local & domain & tld & -> & L1 & A1 & L2 & A2 & L3 & A3).
  apply is_valid_email_parts. exists local, domain, tld, EmptyString.
  rewrite StrFacts.append_nil_r. repeat split; auto.
Qed.

(** The pattern against the shape: they agree up to a line feed at the end. *)
Lemma is_valid_email_shape s :
  _is_valid_email s = true <->
  email_shape s \/ exists s0, s = s0 +:+ LF /\ email_shape s0.
Proof.
  split.
  - intros M. apply is_valid_email_parts in M
      as (local & domain & tld & nl & -> & L1 & A1 & L2 & A2 & L3 & A3 & [-> | ->]).
    + left. exists local, domain, tld. rewrite StrFacts.append_nil_r.
      repeat split; auto.
    + right. exists (local +:+ "@" +:+ domain +:+ "." +:+ tld). split.
      * now rewrite !StrFacts.append_assoc.
      * exists local, domain, tld. repeat split; auto.
  - intros [Sh | (s0 & -> & (local & domain & tld & -> & L1 & A1 & L2 & A2 & L3 & A3))].
    + now apply shape_is_valid.
    + apply is_valid_email_parts. exists local, domain, tld, LF.
      rewrite !StrFacts.append_assoc. repeat split; auto.
Qed.

Lemma is_valid_email_no_LF s :
  ~ ends_with_LF s -> (_is_valid_email s = true <-> email_shape s).
Proof.
  intros NL. rewrite is_valid_email_shape. split; [| auto].
  intros [Sh | (s0 & E & _)]; [exact Sh |].
  exfalso. apply NL. now exists s0.
Qed.

Lemma no_LF_not_ends s : has_no "010" s -> ~ ends_with_LF s.
Proof.
  unfold has_no. intros NoLF (s0 & ->).
  rewrite StrFacts.all_append in NoLF. simpl in NoLF.
  rewrite andb_false_r in NoLF. discriminate NoLF.
Qed.

Lemma all_imp (p q : ascii -> bool) s :
  (forall c, p c = true -> q c = true) -> Str.all p s = true -> Str.all q s = true.
Proof.
  intros Imp. induction s as [|c s IH]; simpl; [reflexivity |].
  intros [Hc Hs]%andb_true_iff. now rewrite (Imp c Hc), IH.
Qed.

Lemma class_char_not_LF c :
  local_char c || domain_char c || is_letter c = true ->
  negb (Ascii.eqb c "010") = true.
Proof. destruct c as [[] [] [] [] [] [] [] []]; vm_compute; congruence. Qed.

(** No character of an address of the valid shape is a line feed. *)
Lemma shape_has_no_LF s : email_shape s -> has_no "010" s.
Proof.
  intros (local & domain & tld & -> & _ & A1 & _ & A2 & _ & A3).
  unfold has_no.
  rewrite StrFacts.all_append, StrFacts.append_cons, StrFacts.append_nil_l.
  simpl. rewrite StrFacts.all_append, StrFacts.append_cons, StrFacts.append_nil_l.
  simpl.
  rewrite (all_imp local_char _ local), (all_imp domain_char _ domain),
    (all_imp is_letter _ tld); auto;
    intros c Hc; apply class_char_not_LF; rewrite Hc;
    rewrite ?orb_true_r; reflexivity.
Qed.

Lemma split_at_first c (a r : string) :
  has_no c a -> split_at c (a +:+ String c r) = Some (a, r).
Proof.
  unfold has_no. induction a as [|x a IH]; intros Ha.
  - rewrite StrFacts.append_nil_l. simpl. now rewrite Ascii.eqb_refl.
  - rewrite StrFacts.append_cons. simpl in *.
    apply andb_true_iff in Ha as [Hx Ha].
    apply negb_true_iff in Hx. rewrite Hx, (IH Ha). reflexivity.
Qed.

Lemma local_char_not_at c : local_char c = true -> negb (Ascii.eqb c "@") = true.
Proof. destruct c as [[] [] [] [] [] [] [] []]; vm_compute; congruence. Qed.

Lemma local_has_no_at s : Str.all local_char s = true -> has_no "@" s.
Proof.
  unfold has_no. induction s as [|c s IH]; simpl; [reflexivity |].
  intros [Hc Hs]%andb_true_iff. now rewrite local_char_not_at, IH.
Qed.

(** An accepted address splits at its first [@] into the local part and a
    rest that is not empty and holds a dot. *)
Lemma is_valid_email_split s :
  _is_valid_email s = true ->
  exists local rest,
    split_at "@" s = Some (local, rest) /\ rest <> EmptyString /\ ~ has_no "." rest.
Proof.
  intros M. apply is_valid_email_parts in M
    as (local & domain & tld & nl & -> & L1 & A1 & L2 & A2 & L3 & A3 & _).
  exists local, (domain +:+ "." +:+ tld +:+ nl).
  split; [| split].
  - now apply (split_at_first "@"), local_has_no_at.
  - destruct domain; [congruence | discriminate].
  - unfold has_no. rewrite StrFacts.all_append, StrFacts.append_cons. simpl.
    rewrite andb_false_r. discriminate.
Qed.

Lemma malformed_is_invalid s :
  missing_at s \/ missing_domain s \/ missing_tld s -> _is_valid_email s = false.
Proof.
  intros Bad. destruct (_is_valid_email s) eqn:M; [exfalso | reflexivity].
  apply is_valid_email_split in M as (local & rest & E & Ne & Dot).
  destruct Bad as [N | [(l & D) | (l & d & T & ND)]].
  - unfold missing_at in N. congruence.
  - rewrite E in D. injection D as -> ->. congruence.
  - rewrite E in T. injection T as -> ->. contradiction.
Qed.

End EmailFacts.

(** ** Running the use cases

    One equation per use case: what its run is, by the answers of the port. *)

Section RunFacts.

Context {S : Type} `{UserRepository S}.

Lemma run_create_user (w : World S) (email name : string) :
  run (CreateUserUseCase.execute email name) w =
  if negb (Str.truthy email) || negb (Str.truthy name)
  then (inl (InvalidUserDataException "Email and name are required"), w, [])
  else if negb (CreateUserUseCase._is_valid_email email)
  then (inl (InvalidUserDataException "Invalid email"), w, [])
  else
    match find_by_email email (store w) with
    | (inl msg, s1) =>
        (inl (Exception msg), with_store w s1, [EFind_by_email email])
    | (inr (Some _), s1) =>
        (inl (UserAlreadyExistsException "Email is already registered"),
         with_store w s1, [EFind_by_email email])
    | (inr None, s1) =>
        match save (created w email name) s1 with
        | (inl msg, s2) =>
            (inl (Exception msg), with_store (after_construction w s1) s2,
             create_trace w email name)
        | (inr saved_user, s2) =>
            (inr saved_user, with_store (after_construction w s1) s2,
             create_trace w email name)
        end
    end.
Proof.
  unfold CreateUserUseCase.execute.
  destruct (negb (Str.truthy email) || negb (Str.truthy name)); [reflexivity |].
  destruct (negb (CreateUserUseCase._is_valid_email email)); [reflexivity |].
  cbn. unfold on_store.
  destruct (find_by_email email (store w)) as [[msg | [existing |]] s1]; try reflexivity.
  cbn. unfold on_store. cbn.
  change (User.Build _ _ _ _ _ _) with (created w email name).
  destruct (save (created w email name) s1) as [[msg | saved_user] s2]; reflexivity.
Qed.

Lemma run_get_user (w : World S) (user_id : UUID) :
  run (GetUserUseCase.execute user_id) w =
  match find_by_id user_id (store w) with
  | (inl msg, s1) => (inl (Exception msg), with_store w s1, [EFind_by_id user_id])
  | (inr None, s1) =>
      (inl (UserNotFoundException
              ("User with ID " +:+ Uuid.str user_id +:+ " not found")),
       with_store w s1, [EFind_by_id user_id])
  | (inr (Some u), s1) => (inr u, with_store w s1, [EFind_by_id user_id])
  end.
Proof.
  unfold GetUserUseCase.execute. cbn. unfold on_store.
  destruct (find_by_id user_id (store w)) as [[msg | [u |]] s1]; reflexivity.
Qed.

Lemma run_get_all_users (w : World S) :
  run GetAllUsersUseCase.execute w =
  match find_all (store w) with
  | (inl msg, s1) => (inl (Exception msg), with_store w s1, [EFind_all])
  | (inr users, s1) => (inr users, with_store w s1, [EFind_all])
  end.
Proof.
  unfold GetAllUsersUseCase.execute. cbn. unfold on_store.
  destruct (find_all (store w)) as [[msg | users] s1]; reflexivity.
Qed.

(** Sequencing: the second program starts in the world the first one left,
    and the calls of the two follow one another. *)
Lemma run_bind {A B} (m : prog A) (f : A -> prog B) (w : World S) :
  run (bind m f) w =
  match run m w with
  | (inl e, w', t) => (inl e, w', t)
  | (inr a, w', t) => let '(r, w'', t') := run (f a) w' in (r, w'', t ++ t')
  end.
Proof.
  revert w. induction m as [a | e | X c k IH]; intros w; cbn.
  - now destruct (run (f a) w) as [[r w'] t].
  - reflexivity.
  - destruct (handle c w) as [[msg | x] w1]; [reflexivity |].
    rewrite IH. destruct (run (k x) w1) as [[[e | a] w2] t]; [reflexivity |].
    now destruct (run (f a) w2) as [[r w3] t'].
Qed.

Lemma with_store_same (w : World S) : with_store w (store w) = w.
Proof. now destruct w. Qed.

(** A mutation reads the clock once and cannot fail. *)
Lemma run_mutate (w : World S) (u : User) (m : Entity.mutation) :
  exists u',
    run (Entity.mutate u m) w =
      (inr u', MkWorld (store w) (ticks w) (Datatypes.S (tick w)) (draws w) (draw w),
       [ENow]) /\
    User.id u' = User.id u /\
    User.created_at u' = User.created_at u /\
    User.updated_at u' = now w.
Proof. destruct m; eexists; cbn; repeat split. Qed.

End RunFacts.

(** * The properties of the spec *)

Section Properties.

Context {S : Type} `{UserRepository S}.

Lemma valid_email_truthy (email : string) :
  CreateUserUseCase._is_valid_email email = true -> Str.truthy email = true.
Proof. destruct email; [discriminate | reflexivity]. Qed.

(** What the code does for an address that is not known.  For an e-mail
    of the valid shape, a name that is not empty and a lookup by e-mail
    that answers "absent", [CreateUser] returns, when [Save] returns the
    entity, an active entity with the e-mail and the name it was given,
    whose identifier is the one [uuid4()] drew during the call (its text is
    not empty, and it is new to the repository when that draw is not stored
    yet), and whose [created_at] and [updated_at] are two readings of the
    clock, [created_at] first. *)
Lemma create_user_success (w : World S) (email name : string) (s1 : S) :
  Spec.email_shape email ->
  name <> EmptyString ->
  find_by_email email (store w) = (inr None, s1) ->
  (save (created w email name) s1).1 = inr (created w email name) ->
  (find_by_id (next_uuid w) (store w)).1 = inr None ->
  exists u,
    result (run (CreateUserUseCase.execute email name) w) = inr u /\
    trace (run (CreateUserUseCase.execute email name) w) =
      [EFind_by_email email; EUuid4; ENow; ENow; ESave u] /\
    User.is_active u = true /\
    User.created_at u = ticks w (tick w) /\
    User.updated_at u = ticks w (Datatypes.S (tick w)) /\
    (Spec.clock_monotone w -> User.created_at u <= User.updated_at u) /\
    User.id u = next_uuid w /\
    Uuid.str (User.id u) <> EmptyString /\
    (find_by_id (User.id u) (store w)).1 = inr None /\
    User.email u = email /\ User.name u = name.
Proof.
  intros Shape Name Absent Saves Fresh.
  apply EmailFacts.shape_is_valid in Shape as Valid.
  pose proof (valid_email_truthy _ Valid) as Email.
  apply StrFacts.truthy_true in Name.
  rewrite run_create_user, Email, Name, Valid, Absent.
  cbn [negb orb].
  destruct (save (created w email name) s1) as [[msg | saved] s2];
    cbn in Saves; [discriminate Saves |].
  injection Saves as ->.
  exists (created w email name). unfold result, trace, create_trace. cbn.
  repeat split; auto using UuidFacts.str_nonempty.
Qed.

(** When [CreateUser] fails with [InvalidInput]: an empty e-mail, an empty
    name, or an e-mail the pattern rejects; nothing else. *)
Lemma create_user_invalid_iff (w : World S) (email name : string) :
  Spec.invalid_input (result (run (CreateUserUseCase.execute email name) w)) <->
  Str.truthy email = false \/ Str.truthy name = false \/
  CreateUserUseCase._is_valid_email email = false.
Proof.
  rewrite run_create_user.
  destruct (Str.truthy email), (Str.truthy name),
    (CreateUserUseCase._is_valid_email email); cbn;
    try (split; [auto | intros _; exact I]).
  destruct (find_by_email email (store w)) as [[msg | [existing |]] s1]; cbn.
  1-2: split; [intros [] | intros [E | [E | E]]; discriminate E].
  destruct (save _ s1) as [[msg | saved] s2]; cbn;
    (split; [intros [] | intros [E | [E | E]]; discriminate E]).
Qed.

Section WithContract.

Context `{!LookupsKeepStore S}.

(** C4 (as the code has it).  When the lookup by e-mail answers with a
    record, [CreateUser] fails, writes nothing and leaves the repository as
    it was; the failure is [AlreadyExists] when the input passes the checks
    made before the lookup (a name that is not empty, an e-mail the pattern
    accepts) and [InvalidInput] otherwise. *)
Theorem create_user_existing_email (w : World S) (email name : string) (existing : User) :
  (find_by_email email (store w)).1 = inr (Some existing) ->
  let o := run (CreateUserUseCase.execute email name) w in
  Spec.writes (trace o) = 0%nat /\
  world o = w /\
  (name <> EmptyString -> CreateUserUseCase._is_valid_email email = true ->
   result o = inl (UserAlreadyExistsException "Email is already registered") /\
   trace o = [EFind_by_email email]) /\
  (name = EmptyString \/ CreateUserUseCase._is_valid_email email = false ->
   Spec.invalid_input (result o) /\ trace o = []).
Proof.
  intros Found o. subst o. rewrite run_create_user.
  pose proof (find_by_email_pure email (store w)) as Pure.
  destruct (find_by_email email (store w)) as [r s1]. cbn in Found, Pure. subst r s1.
  rewrite with_store_same.
  destruct (Str.truthy email) eqn:Email, (Str.truthy name) eqn:Name,
    (CreateUserUseCase._is_valid_email email) eqn:Valid; cbn.
  all: split; [reflexivity | split; [reflexivity |]].
  all: split; [intros Name' Valid' | intros [Name' | Valid']].
  all: try discriminate Valid'.
  all: try (apply StrFacts.truthy_false in Name; contradiction).
  all: try (apply StrFacts.truthy_true in Name; contradiction).
  all: try (apply valid_email_truthy in Valid; congruence).
  all: split; reflexivity || exact I.
Qed.

(** C5 (as the code has it).  A run of [CreateUser] that succeeds makes one
    read, the lookup by e-mail, and then one write, the [Save] of the entity
    it returns.  A run that fails with [InvalidInput] makes no call at all,
    and one that fails with [AlreadyExists] makes the read only; both leave
    the repository as it was.  When the store itself fails, the run ends at
    the failing call: the read, or the read and the write.  No run makes
    more than one read or more than one write. *)
Theorem create_user_calls `{!SaveReturnsUser S} (w : World S) (email name : string) :
  let o := run (CreateUserUseCase.execute email name) w in
  let calls := List.filter is_repo (trace o) in
  match result o with
  | inr u => calls = [EFind_by_email email; ESave u]
  | inl (InvalidUserDataException _) => trace o = [] /\ world o = w
  | inl (UserAlreadyExistsException _) =>
      calls = [EFind_by_email email] /\ store (world o) = store w
  | inl (Exception _) =>
      (calls = [EFind_by_email email] /\ store (world o) = store w) \/
      calls = [EFind_by_email email; ESave (created w email name)]
  | inl _ => False
  end /\
  (Spec.reads (trace o) <= 1)%nat /\ (Spec.writes (trace o) <= 1)%nat.
Proof.
  intros o calls. subst o calls. rewrite run_create_user.
  destruct (negb (Str.truthy email) || negb (Str.truthy name)); [cbn; auto |].
  destruct (negb (CreateUserUseCase._is_valid_email email)); [cbn; auto |].
  pose proof (find_by_email_pure email (store w)) as Pure.
  destruct (find_by_email email (store w)) as [[msg | [existing |]] s1];
    cbn in Pure; subst s1; [cbn; auto .. |].
  pose proof (save_returns_argument (created w email name) (store w)) as Same.
  destruct (save (created w email name) (store w)) as [[msg | saved] s2].
  - cbn. auto.
  - rewrite (Same saved eq_refl). cbn. auto.
Qed.

End WithContract.

(** C10.  [GetUser] calls [FindByID] and nothing else, [ListUsers] calls
    [FindAll] and nothing else; neither calls [Save], [Update] or [Delete].
    The store after the run is the one the lookup left, so with lookups that
    leave the store as it is, the world, the repository in it, is after the
    run what it was before, whether the run returns or raises. *)
Theorem queries_only_read (w : World S) :
  (forall user_id : UUID,
     let o := run (GetUserUseCase.execute user_id) w in
     trace o = [EFind_by_id user_id] /\ Spec.writes (trace o) = 0%nat /\
     world o = with_store w (find_by_id user_id (store w)).2 /\
     (LookupsKeepStore S -> world o = w)) /\
  (let o := run GetAllUsersUseCase.execute w in
   trace o = [EFind_all] /\ Spec.writes (trace o) = 0%nat /\
   world o = with_store w (find_all (store w)).2 /\
   (LookupsKeepStore S -> world o = w)).
Proof.
  split.
  - intros user_id o. subst o. rewrite run_get_user.
    assert (Pure : LookupsKeepStore S -> (find_by_id user_id (store w)).2 = store w)
      by (intros L; apply find_by_id_pure).
    destruct (find_by_id user_id (store w)) as [[msg | [u |]] s1]; cbn in *;
      repeat split; intros L; rewrite (Pure L); apply with_store_same.
  - intros o. subst o. rewrite run_get_all_users.
    assert (Pure : LookupsKeepStore S -> (find_all (store w)).2 = store w)
      by (intros L; apply find_all_pure).
    destruct (find_all (store w)) as [[msg | users] s1]; cbn in *;
      repeat split; intros L; rewrite (Pure L); apply with_store_same.
Qed.

(** C6 (as the code has it).  For a name that is not empty and an e-mail
    that does not end in a line feed, [CreateUser] fails with [InvalidInput]
    exactly when the e-mail is not of the shape [local@domain.tld]; and for
    every name, an e-mail with no [@], with nothing after the [@] or with no
    dot after the [@] is rejected with [InvalidInput]. *)
Theorem create_user_invalid_email (w : World S) (email name : string) :
  (name <> EmptyString -> ~ Spec.ends_with_LF email ->
   (Spec.invalid_input (result (run (CreateUserUseCase.execute email name) w)) <->
    ~ Spec.email_shape email)) /\
  (Spec.missing_at email \/ Spec.missing_domain email \/ Spec.missing_tld email ->
   Spec.invalid_input (result (run (CreateUserUseCase.execute email name) w))).
Proof.
  split.
  - intros Name NoLF. apply StrFacts.truthy_true in Name.
    rewrite create_user_invalid_iff, Name.
    rewrite <- (EmailFacts.is_valid_email_no_LF email NoLF).
    split.
    + intros [E | [E | E]]; [| discriminate E | congruence].
      intros V. apply valid_email_truthy in V. congruence.
    + intros NV. right. right. now apply not_true_is_false.
  - intros Bad. apply create_user_invalid_iff. right. right.
    now apply EmailFacts.malformed_is_invalid.
Qed.

(** C7.  [GetUser(id)] fails with [NotFound] if and only if [FindByID(id)]
    answers "absent", and when [FindByID(id)] answers with a record,
    [GetUser(id)] returns that very record. *)
Theorem get_user_found_or_not (w : World S) (user_id : UUID) :
  (Spec.not_found (result (run (GetUserUseCase.execute user_id) w)) <->
   (find_by_id user_id (store w)).1 = inr None) /\
  (forall u : User,
     (find_by_id user_id (store w)).1 = inr (Some u) ->
     result (run (GetUserUseCase.execute user_id) w) = inr u).
Proof.
  rewrite run_get_user.
  destruct (find_by_id user_id (store w)) as [[msg | [u |]] s1]; cbn; split;
    try (split; [intros [] | discriminate]);
    try (intros u' E; congruence).
  split; auto.
Qed.

(** Mutations keep the order of the time stamps as long as [created_at] is
    not later than the clock. *)
Lemma mutate_all_ordered (ms : list Entity.mutation) (w : World S) (u : User) :
  Spec.clock_monotone w ->
  User.created_at u <= now w ->
  Entity.timestamps_ordered u ->
  exists u',
    result (run (Entity.mutate_all u ms) w) = inr u' /\
    Entity.timestamps_ordered u' /\
    User.created_at u' = User.created_at u /\
    User.id u' = User.id u.
Proof.
  revert w u. induction ms as [|m ms IH]; intros w u Mono Past Ord.
  - exists u. cbn. auto.
  - destruct (run_mutate w u m) as (u1 & R1 & Id1 & C1 & U1).
    set (w1 := MkWorld (store w) (ticks w) (Datatypes.S (tick w)) (draws w) (draw w)) in *.
    destruct (IH w1 u1) as (u' & R' & Ord' & C' & Id').
    + exact Mono.
    + rewrite C1. unfold now in *. cbn. etrans; [exact Past |]. apply Mono. lia.
    + unfold Entity.timestamps_ordered. rewrite C1, U1. exact Past.
    + exists u'. repeat split; try congruence.
      change (Entity.mutate_all u (m :: ms))
        with (bind (Entity.mutate u m) (fun u => Entity.mutate_all u ms)).
      rewrite run_bind, R1. fold w1. unfold result in R'.
      destruct (run (Entity.mutate_all u1 ms) w1) as [[r w2] t].
      exact R'.
Qed.

(** C8 (as the code has it).  An entity built with both time stamps left
    out, on a clock that never runs backwards, has [updated_at >= created_at]
    at construction and after any sequence of [UpdateName], [Activate] and
    [Deactivate], none of which changes [created_at]. *)
Theorem timestamps_ordered_after_mutations (w : World S) (id : option UUID)
    (email name : string) (is_active : bool) (ms : list Entity.mutation) :
  Spec.clock_monotone w ->
  exists (u0 : User) (w0 : World S) (t0 : list event),
    run (Entity.init id email name is_active None None) w = (inr u0, w0, t0) /\
    Entity.timestamps_ordered u0 /\
    exists u : User,
      result (run (Entity.mutate_all u0 ms) w0) = inr u /\
      Entity.timestamps_ordered u /\
      User.created_at u = User.created_at u0.
Proof.
  intros Mono.
  assert (Step : ticks w (tick w) <= ticks w (Datatypes.S (tick w)))
    by (apply Mono; lia).
  assert (Later : ticks w (tick w) <= ticks w (Datatypes.S (Datatypes.S (tick w))))
    by (apply Mono; lia).
  destruct id as [i |]; cbn; do 3 eexists; (split; [reflexivity |]);
    (split; [exact Step |]).
  all: match goal with
       | |- context [run (Entity.mutate_all ?u0 ?l) ?w0] =>
           destruct (mutate_all_ordered l w0 u0) as (u & R & Ord & C & _);
             [exact Mono | exact Later | exact Step | eauto]
       end.
Qed.

(** C9.  [Activate()] on an entity that is active already returns it
    active, with [updated_at] set to the reading of the clock at the call
    and the other fields as they were; a second call does the same with the
    next reading, so [is_active] stays and [updated_at] moves with the clock. *)
Theorem activate_when_active (w : World S) (u : User) :
  User.is_active u = true ->
  exists (u1 u2 : User) (w1 : World S),
    run (Entity.activate u) w = (inr u1, w1, [ENow]) /\
    User.is_active u1 = true /\
    User.is_active u1 = User.is_active u /\
    User.updated_at u1 = ticks w (tick w) /\
    (User.id u1, User.email u1, User.name u1, User.created_at u1) =
      (User.id u, User.email u, User.name u, User.created_at u) /\
    result (run (Entity.activate u1) w1) = inr u2 /\
    User.is_active u2 = true /\
    User.updated_at u2 = ticks w (Datatypes.S (tick w)).
Proof.
  intros Active. do 3 eexists. cbn.
  repeat split. symmetry. exact Active.
Qed.

(** X1.  [ListUsers] hands on what [FindAll] answers: the same list in the same
    order, or the failure of the store. *)
Theorem list_users_is_find_all (w : World S) :
  result (run GetAllUsersUseCase.execute w) =
  match (find_all (store w)).1 with
  | inl msg => inl (Exception msg)
  | inr users => inr users
  end.
Proof.
  rewrite run_get_all_users.
  now destruct (find_all (store w)) as [[msg | users] s1].
Qed.

(** X2.  [Deactivate()] and then [Activate()]: the entity is inactive in between
    and active at the end, whatever it was before; identifier, e-mail,
    name and [created_at] stay, and each call reads the clock once. *)
Theorem deactivate_then_activate (w : World S) (u : User) :
  exists (u1 u2 : User) (w1 w2 : World S),
    run (Entity.deactivate u) w = (inr u1, w1, [ENow]) /\
    User.is_active u1 = false /\
    run (Entity.activate u1) w1 = (inr u2, w2, [ENow]) /\
    User.is_active u2 = true /\
    (User.id u2, User.email u2, User.name u2, User.created_at u2) =
      (User.id u, User.email u, User.name u, User.created_at u) /\
    User.updated_at u1 = ticks w (tick w) /\
    User.updated_at u2 = ticks w (Datatypes.S (tick w)).
Proof. do 4 eexists. cbn. repeat split. Qed.

Lemma lower_empty (s : string) : Str.lower s = EmptyString -> s = EmptyString.
Proof. destruct s; [reflexivity | discriminate]. Qed.

(** X3.  The factory's [create_user] on ASCII text, when it returns: the
    e-mail is the argument trimmed and lower-cased, the name is the
    argument trimmed, neither is empty, and the identifier is the one
    [uuid4()] drew. *)
Theorem factory_create_user_normalizes (w : World S) (email name : string)
    (is_active : bool) (u : User) :
  PyStr.is_ascii email ->
  PyStr.is_ascii name ->
  result (run (UserFactory.create_user email name is_active) w) = inr u ->
  User.email u = Str.lower (Str.strip email) /\
  User.name u = Str.strip name /\
  User.email u <> EmptyString /\
  User.name u <> EmptyString /\
  User.is_active u = is_active /\
  User.id u = next_uuid w.
Proof.
  intros _ _. unfold UserFactory.create_user.
  destruct (Str.truthy email); [| discriminate].
  destruct (Str.truthy (Str.strip email)) eqn:E; [| discriminate].
  destruct (Str.truthy name); [| discriminate].
  destruct (Str.truthy (Str.strip name)) eqn:N; [| discriminate].
  cbn. intros R. injection R as <-. cbn.
  apply StrFacts.truthy_true in E, N.
  repeat split; auto.
  intros L. now apply lower_empty in L.
Qed.

(** X4.  The [$] of the pattern: an address of the valid shape followed by one
    line feed is accepted by [_is_valid_email], and is not of the shape. *)
Theorem valid_email_accepts_trailing_LF (s : string) :
  Spec.email_shape s ->
  CreateUserUseCase._is_valid_email (s +:+ Spec.LF) = true /\
  ~ Spec.email_shape (s +:+ Spec.LF).
Proof.
  intros Sh. split.
  - apply EmailFacts.is_valid_email_shape. right. now exists s.
  - intros Sh'. apply EmailFacts.shape_has_no_LF in Sh'.
    unfold Spec.has_no in Sh'. rewrite StrFacts.all_append in Sh'.
    simpl in Sh'. rewrite andb_false_r in Sh'. discriminate Sh'.
Qed.

End Properties.

(** * The properties on the DynamoDB adapter, at concrete inputs *)

Module Examples.
Import AWSDynamoDBUserRepository Sample.

Lemma shape_a_b_com : Spec.email_shape "a@b.com".
Proof.
  exists "a", "b", "com". repeat split; try reflexivity; try discriminate.
  simpl. lia.
Qed.

(** The first user of an empty table. *)
Lemma create_user_success_witness :
  exists u,
    result (run (CreateUserUseCase.execute "a@b.com" "Ann") empty) = inr u /\
    trace (run (CreateUserUseCase.execute "a@b.com" "Ann") empty) =
      [EFind_by_email "a@b.com"; EUuid4; ENow; ENow; ESave u] /\
    User.is_active u = true /\
    User.created_at u = ticks empty (tick empty) /\
    User.updated_at u = ticks empty (Datatypes.S (tick empty)) /\
    (Spec.clock_monotone empty -> User.created_at u <= User.updated_at u) /\
    User.id u = next_uuid empty /\
    Uuid.str (User.id u) <> EmptyString /\
    (find_by_id (User.id u) (store empty)).1 = inr None /\
    User.email u = "a@b.com" /\ User.name u = "Ann".
Proof.
  apply (create_user_success empty "a@b.com" "Ann" ∅).
  - exact shape_a_b_com.
  - discriminate.
  - reflexivity.
  - reflexivity.
  - reflexivity.
Defined.

(** C1 fails on the code: the input is valid and the e-mail is not known,
    the user is created, and its [updated_at] is one microsecond after its
    [created_at], [__post_init__] having read the clock once for each, where
    the two are to be the same instant and [create_user_with_id] of the
    factory reads the clock once for both. *)
Lemma create_user_timestamps_differ :
  Spec.email_shape "a@b.com" /\
  "Ann" <> EmptyString /\
  (find_by_email "a@b.com" (store empty)).1 = inr None /\
  exists u,
    result (run (CreateUserUseCase.execute "a@b.com" "Ann") empty) = inr u /\
    User.created_at u = 1700000000000000 /\
    User.updated_at u = 1700000000000001 /\
    User.created_at u <> User.updated_at u.
Proof.
  split; [exact shape_a_b_com |].
  split; [discriminate |].
  split; [reflexivity |].
  eexists. split; [reflexivity |]. vm_compute. repeat split. discriminate.
Qed.

(** Why C1 asks that the draw of [uuid4()] be new: in a table that holds
    a user under the identifier drawn next, [CreateUser] returns an entity
    with that identifier and [Save] replaces the stored one. *)
Lemma create_user_repeated_uuid :
  let bob := User.Build 1%N "bob@b.com" "Bob" true 1600000000000000 1600000000000000 in
  let w := world_of (<[User.id bob := user_to_item bob]> ∅) in
  let o := run (CreateUserUseCase.execute "a@b.com" "Ann") w in
  (find_by_id (next_uuid w) (store w)).1 = inr (Some bob) /\
  exists u,
    result o = inr u /\ User.id u = User.id bob /\
    (find_by_id (User.id bob) (store (world o))).1 = inr (Some u) /\
    User.email u = "a@b.com".
Proof.
  cbv zeta. split; [reflexivity |].
  eexists. split; [reflexivity |]. split; [reflexivity |].
  split; reflexivity.
Qed.

(** C2 at the failing input: the address is stored and saved with its
    capitals, which is not its normal form; the factory would have stored
    it lower-cased; and a table that holds a@b.com takes A@B.COM as a new
    address. *)
Lemma create_user_keeps_email_as_given :
  (exists u,
     result (run (CreateUserUseCase.execute "A@B.CO" "Ann") empty) = inr u /\
     In (ESave u) (trace (run (CreateUserUseCase.execute "A@B.CO" "Ann") empty)) /\
     User.email u = "A@B.CO" /\
     ~ Spec.normalized (User.email u)) /\
  (exists v,
     result (run (UserFactory.create_user " A@B.CO " "Ann" true) empty) = inr v /\
     User.email v = "a@b.co" /\
     Spec.normalized (User.email v)) /\
  (exists u,
     (find_by_email "a@b.com" (store with_ann)).1 = inr (Some ann) /\
     result (run (CreateUserUseCase.execute "A@B.COM" "Ann2") with_ann) = inr u /\
     User.email u = "A@B.COM").
Proof.
  split; [| split].
  - eexists. split; [reflexivity |]. vm_compute. split; [auto 10 |].
    split; [reflexivity | discriminate].
  - eexists. split; [reflexivity |]. vm_compute. split; reflexivity.
  - eexists. split; [reflexivity |]. split; reflexivity.
Qed.

(** C3 at the failing input: a name of one space is accepted, stored and
    saved, where the factory raises; an empty name is rejected. *)
Lemma create_user_accepts_blank_name :
  Spec.blank " " /\
  (exists u,
     result (run (CreateUserUseCase.execute "a@b.com" " ") empty) = inr u /\
     In (ESave u) (trace (run (CreateUserUseCase.execute "a@b.com" " ") empty)) /\
     User.name u = " ") /\
  result (run (UserFactory.create_user "a@b.com" " " true) empty)
    = inl (ValueError "Name is required") /\
  Spec.invalid_input (result (run (CreateUserUseCase.execute "a@b.com" "") empty)).
Proof.
  split; [reflexivity |].
  split; [| split; [reflexivity | exact I]].
  eexists. split; [reflexivity |]. vm_compute. split; [auto 10 | reflexivity].
Qed.

(** C4 at work: Ann's address again. *)
Lemma create_user_existing_email_witness :
  let o := run (CreateUserUseCase.execute "a@b.com" "Ann2") with_ann in
  Spec.writes (trace o) = 0%nat /\
  world o = with_ann /\
  ("Ann2" <> EmptyString -> CreateUserUseCase._is_valid_email "a@b.com" = true ->
   result o = inl (UserAlreadyExistsException "Email is already registered") /\
   trace o = [EFind_by_email "a@b.com"]) /\
  ("Ann2" = EmptyString \/ CreateUserUseCase._is_valid_email "a@b.com" = false ->
   Spec.invalid_input (result o) /\ trace o = []).
Proof.
  apply (create_user_existing_email with_ann "a@b.com" "Ann2" ann).
  reflexivity.
Defined.

(** C4 as stated fails: the lookup by e-mail would answer with Ann's
    record, and with an empty name the failure is [InvalidInput], raised
    before any lookup, not [AlreadyExists]. *)
Lemma create_user_existing_email_empty_name :
  (find_by_email "a@b.com" (store with_ann)).1 = inr (Some ann) /\
  result (run (CreateUserUseCase.execute "a@b.com" "") with_ann)
    = inl (InvalidUserDataException "Email and name are required") /\
  ~ Spec.already_exists (result (run (CreateUserUseCase.execute "a@b.com" "") with_ann)).
Proof. split; [reflexivity | split; [reflexivity | intros []]]. Qed.

(** C5 at work: a successful run, one read and then one write. *)
Lemma create_user_calls_witness :
  let o := run (CreateUserUseCase.execute "a@b.com" "Ann") empty in
  let calls := List.filter is_repo (trace o) in
  match result o with
  | inr u => calls = [EFind_by_email "a@b.com"; ESave u]
  | inl (InvalidUserDataException _) => trace o = [] /\ world o = empty
  | inl (UserAlreadyExistsException _) =>
      calls = [EFind_by_email "a@b.com"] /\ store (world o) = store empty
  | inl (Exception _) =>
      (calls = [EFind_by_email "a@b.com"] /\ store (world o) = store empty) \/
      calls = [EFind_by_email "a@b.com"; ESave (created empty "a@b.com" "Ann")]
  | inl _ => False
  end /\
  (Spec.reads (trace o) <= 1)%nat /\ (Spec.writes (trace o) <= 1)%nat.
Proof. exact (create_user_calls empty "a@b.com" "Ann"). Defined.

(** C5 as stated fails: a run that is rejected for an empty e-mail makes
    no read and no write, and a run that finds the address taken makes one
    read and no write. *)
Lemma create_user_failed_runs_calls :
  (let o := run (CreateUserUseCase.execute "" "Ann") empty in
   Spec.invalid_input (result o) /\
   Spec.reads (trace o) = 0%nat /\ Spec.writes (trace o) = 0%nat) /\
  (let o := run (CreateUserUseCase.execute "a@b.com" "Ann2") with_ann in
   Spec.already_exists (result o) /\
   Spec.reads (trace o) = 1%nat /\ Spec.writes (trace o) = 0%nat).
Proof. vm_compute. repeat split. Qed.

(** C6 at work: an address without [@], with a name. *)
Lemma create_user_invalid_email_witness :
  "Ann" <> EmptyString /\ ~ Spec.ends_with_LF "ab.com" /\ Spec.missing_at "ab.com" /\
  (Spec.invalid_input (result (run (CreateUserUseCase.execute "ab.com" "Ann") empty)) <->
   ~ Spec.email_shape "ab.com") /\
  Spec.invalid_input (result (run (CreateUserUseCase.execute "ab.com" "Ann") empty)).
Proof.
  assert (Name : "Ann" <> EmptyString) by discriminate.
  assert (NoLF : ~ Spec.ends_with_LF "ab.com")
    by (apply EmailFacts.no_LF_not_ends; reflexivity).
  assert (NoAt : Spec.missing_at "ab.com") by reflexivity.
  destruct (create_user_invalid_email empty "ab.com" "Ann") as [Iff Bad].
  split; [exact Name |]. split; [exact NoLF |]. split; [exact NoAt |].
  split; [exact (Iff Name NoLF) | exact (Bad (or_introl NoAt))].
Defined.

(** C6 as stated fails: with an empty name the run fails with
    [InvalidInput] although the e-mail is of the valid shape. *)
Lemma create_user_invalid_for_empty_name :
  Spec.email_shape "a@b.com" /\
  Spec.invalid_input (result (run (CreateUserUseCase.execute "a@b.com" "") empty)).
Proof. split; [exact shape_a_b_com | exact I]. Qed.

Lemma ticking_monotone : Spec.clock_monotone empty.
Proof. intros n m L. cbn. unfold ticking. lia. Qed.

(** C8 at work: a new entity, then three mutations. *)
Lemma timestamps_ordered_after_mutations_witness :
  exists (u0 : User) (w0 : World table) (t0 : list event),
    run (Entity.init None "a@b.com" "Ann" true None None) empty = (inr u0, w0, t0) /\
    Entity.timestamps_ordered u0 /\
    exists u : User,
      result (run (Entity.mutate_all u0
                     [Entity.Deactivate; Entity.UpdateName "Bob"; Entity.Activate]) w0)
        = inr u /\
      Entity.timestamps_ordered u /\
      User.created_at u = User.created_at u0.
Proof.
  apply (timestamps_ordered_after_mutations empty None "a@b.com" "Ann" true).
  exact ticking_monotone.
Defined.

(** C8 as stated fails: the constructor takes the time stamps it is given
    and checks nothing, here an [updated_at] before the [created_at]. *)
Lemma init_takes_unordered_timestamps :
  exists u,
    result (run (Entity.init (Some 1%N) "a@b.com" "Ann" true (Some 10) (Some 5)) empty)
      = inr u /\
    ~ Entity.timestamps_ordered u.
Proof.
  eexists. split; [reflexivity |]. unfold Entity.timestamps_ordered. cbn. lia.
Qed.

(** C9 at work: Ann, who is active. *)
Lemma activate_when_active_witness :
  exists (u1 u2 : User) (w1 : World table),
    run (Entity.activate ann) empty = (inr u1, w1, [ENow]) /\
    User.is_active u1 = true /\
    User.is_active u1 = User.is_active ann /\
    User.updated_at u1 = ticks empty (tick empty) /\
    (User.id u1, User.email u1, User.name u1, User.created_at u1) =
      (User.id ann, User.email ann, User.name ann, User.created_at ann) /\
    result (run (Entity.activate u1) w1) = inr u2 /\
    User.is_active u2 = true /\
    User.updated_at u2 = ticks empty (Datatypes.S (tick empty)).
Proof. apply (activate_when_active empty ann). reflexivity. Defined.

(** C10 at work: a table that holds Ann. *)
Lemma queries_only_read_witness :
  (forall user_id : UUID,
     let o := run (GetUserUseCase.execute user_id) with_ann in
     trace o = [EFind_by_id user_id] /\ Spec.writes (trace o) = 0%nat /\
     world o = with_ann) /\
  (let o := run GetAllUsersUseCase.execute with_ann in
   trace o = [EFind_all] /\ Spec.writes (trace o) = 0%nat /\ world o = with_ann).
Proof.
  destruct (queries_only_read with_ann) as [Get (T & W & _ & Same)].
  split.
  - intros user_id. destruct (Get user_id) as (T' & W' & _ & Same').
    split; [exact T' | split; [exact W' | exact (Same' lookups_keep_store)]].
  - split; [exact T | split; [exact W | exact (Same lookups_keep_store)]].
Defined.

(** X5.  The scenario of the spec: the first [CreateUser] for an address
    succeeds, the second one right after it fails with [AlreadyExists] and
    leaves the table as the first one left it. *)
Lemma create_twice_already_exists :
  let first := run (CreateUserUseCase.execute "a@b.com" "Ann") empty in
  let second := run (CreateUserUseCase.execute "a@b.com" "Ann2") (world first) in
  (exists u, result first = inr u /\ User.is_active u = true) /\
  result second = inl (UserAlreadyExistsException "Email is already registered") /\
  world second = world first.
Proof.
  cbv zeta. split; [eexists; split; reflexivity | split; reflexivity].
Qed.

(** X3 at work: an address and a name with blanks around them. *)
Lemma factory_create_user_normalizes_witness :
  exists u,
    result (run (UserFactory.create_user " A@B.CO " " Ann " true) empty) = inr u /\
    User.email u = Str.lower (Str.strip " A@B.CO ") /\
    User.name u = Str.strip " Ann " /\
    User.email u <> EmptyString /\
    User.name u <> EmptyString /\
    User.is_active u = true /\
    User.id u = next_uuid empty.
Proof.
  eexists. split; [reflexivity |].
  apply (factory_create_user_normalizes empty " A@B.CO " " Ann " true);
    reflexivity.
Defined.

(** X4 at work. *)
Lemma valid_email_accepts_trailing_LF_witness :
  CreateUserUseCase._is_valid_email ("a@b.com" +:+ Spec.LF) = true /\
  ~ Spec.email_shape ("a@b.com" +:+ Spec.LF).
Proof. exact (valid_email_accepts_trailing_LF "a@b.com" shape_a_b_com). Defined.

End Examples.

(** * The DynamoDB adapter on its table *)

Module AdapterFacts.
Import AWSDynamoDBUserRepository Table.

Ltac adapter :=
  unfold find_by_id, find_by_email, find_all, find_active_users, save, delete,
    update, repository;
  unfold dynamo_find_by_id, dynamo_find_by_email, dynamo_find_all,
    dynamo_find_active_users, dynamo_save, dynamo_delete, dynamo_update;
  cbn [fst snd].

Section WithScan.

Context `{Scan}.

Lemma item_to_user_of_item (u : User) :
  _item_to_user (User.id u) (user_to_item u) = inr u.
Proof. now destruct u. Qed.

Lemma complete_to_user (k : UUID) (it : item) :
  complete it = true ->
  exists u, _item_to_user k it = inr u /\ User.id u = k /\ user_to_item u = it.
Proof.
  destruct it as [[e |] [n |] [a |] [c |] [m |]]; try discriminate.
  intros _. eexists. cbn. repeat split.
Qed.

Lemma user_of_item_inj (u v : User) :
  User.id u = User.id v -> user_to_item u = user_to_item v -> u = v.
Proof. destruct u, v. cbn. intros -> E. now injection E as -> -> -> -> ->. Qed.

Lemma complete_user_to_item (u : User) : complete (user_to_item u) = true.
Proof. reflexivity. Qed.

(** Converting a list of complete items gives one user per item, in order. *)
Lemma items_to_users_complete (l : list (UUID * item)) :
  Forall (fun kv => complete kv.2 = true) l ->
  exists us,
    items_to_users l = inr us /\
    List.map (fun u => (User.id u, user_to_item u)) us = l.
Proof.
  induction 1 as [| [k it] l Hc _ (us & E & M)].
  - now exists [].
  - destruct (complete_to_user k it Hc) as (u & Eu & Ik & It).
    exists (u :: us). cbn. rewrite Eu, E. cbn. now rewrite Ik, It, M.
Qed.

Lemma well_formed_list (t : table) :
  well_formed t -> Forall (fun kv => complete kv.2 = true) (map_to_list t).
Proof.
  intros W. apply Forall_forall. intros [k it] Hin.
  apply elem_of_map_to_list in Hin. exact (W k it Hin).
Qed.

Lemma well_formed_empty : well_formed ∅.
Proof. intros k it. rewrite lookup_empty. discriminate. Qed.

Lemma well_formed_save (t : table) (u : User) :
  well_formed t -> well_formed (save u t).2.
Proof.
  intros W k it. adapter.
  rewrite lookup_insert. case_decide.
  - intros [= <-]. reflexivity.
  - apply W.
Qed.

(** What the one page holds is stored. *)
Lemma scan_stored (t : table) (k : UUID) (it : item) :
  In (k, it) (scan t) -> t !! k = Some it.
Proof.
  intros Hin. apply list_elem_of_In in Hin. apply elem_of_map_to_list.
  exact (subseteq_take _ _ _ Hin).
Qed.

Lemma scan_one_page (t : table) : one_page t -> scan t = map_to_list t.
Proof. intros Page. apply take_ge. now rewrite length_map_to_list. Qed.

Lemma scan_complete (t : table) :
  well_formed t -> Forall (fun kv => complete kv.2 = true) (scan t).
Proof. intros W. now apply Forall_take, well_formed_list. Qed.

Lemma map_id_fst (us : list User) :
  List.map User.id us = (List.map (fun u => (User.id u, user_to_item u)) us).*1.
Proof. induction us as [| u us IH]; [reflexivity |]. cbn. now rewrite <- IH. Qed.

(** A table that one [scan()] does not read to the end holds a user the
    page leaves out. *)
Lemma scan_leaves_out (t : table) :
  well_formed t -> ~ one_page t ->
  exists u, holds t u /\ ~ In (User.id u, user_to_item u) (scan t).
Proof.
  intros W Not. unfold one_page in Not. rewrite <- length_map_to_list in Not.
  set (l := map_to_list t) in *. set (n := page_length l) in *.
  destruct (lookup_lt_is_Some_2 l n) as [[k it] L]; [lia |].
  assert (Stored : t !! k = Some it)
    by (apply elem_of_map_to_list; exact (list_elem_of_lookup_2 l n _ L)).
  destruct (complete_to_user k it (W k it Stored)) as (u & _ & Ik & It).
  exists u. unfold holds. rewrite Ik, It. split; [exact Stored |].
  intros Hin. apply list_elem_of_In in Hin. unfold scan in Hin. fold l n in Hin.
  apply elem_of_take in Hin as (i & Li & Lt).
  pose proof (NoDup_lookup l i n (k, it) (NoDup_map_to_list t) Li L). lia.
Qed.

(** What [save] stores under an identifier is what [find_by_id] converts
    for it; the other identifiers are not touched. *)
Lemma save_then_find_by_id (t : table) (u : User) :
  (find_by_id (User.id u) (save u t).2).1 = inr (Some u) /\
  forall i : UUID, i <> User.id u ->
    (find_by_id i (save u t).2).1 = (find_by_id i t).1.
Proof.
  adapter. split.
  - rewrite lookup_insert_eq. cbn [fst]. now rewrite item_to_user_of_item.
  - intros i Ne. rewrite lookup_insert_ne by congruence.
    now destruct (t !! i).
Qed.

(** X7.  [save] is an upsert by identifier: saving [v] over a stored [u]
    with the same identifier leaves the table that saving [v] alone leaves,
    so saving twice is saving once; the table grows by one item exactly
    when the identifier was not stored, and keeps its size otherwise. *)
Theorem save_is_upsert (t : table) (u v : User) :
  User.id v = User.id u ->
  (save v (save u t).2).2 = (save v t).2 /\
  (save u (save u t).2).2 = (save u t).2 /\
  size (save u t).2 =
    match t !! User.id u with Some _ => size t | None => Datatypes.S (size t) end.
Proof.
  intros Same. adapter. rewrite Same.
  split; [apply insert_insert_eq |]. split; [apply insert_insert_eq |].
  destruct (t !! User.id u) as [it |] eqn:L.
  - rewrite map_size_insert_Some; [reflexivity | eauto].
  - now rewrite map_size_insert_None.
Qed.

(** X8.  [delete] answers [False] whether or not the identifier was
    stored ([delete_item] is called without [ReturnValues]), and removes the
    item all the same: [find_by_id] for it answers "absent" afterwards, and
    the answers for the other identifiers are what they were. *)
Theorem delete_answers_false (t : table) (i : UUID) :
  (delete i t).1 = inr false /\
  (find_by_id i (delete i t).2).1 = inr None /\
  forall j : UUID, j <> i -> (find_by_id j (delete i t).2).1 = (find_by_id j t).1.
Proof.
  adapter. split; [reflexivity |]. split.
  - now rewrite lookup_delete_eq.
  - intros j Ne. rewrite lookup_delete_ne by congruence. now destruct (t !! j).
Qed.





Lemma find_all_stored (t : table) :
  well_formed t ->
  exists us : list User,
    (find_all t).1 = inr us /\
    List.map (fun u => (User.id u, user_to_item u)) us = scan t /\
    length us = Nat.min (page_length (map_to_list t)) (size t) /\
    NoDup (List.map User.id us) /\
    (forall u, In u us -> holds t u) /\
    ((forall u, holds t u -> In u us) <-> one_page t) /\
    (find_active_users t).1 = inr (List.filter User.is_active us).
Proof.
  intros W.
  destruct (items_to_users_complete _ (scan_complete t W)) as (us & E & M).
  exists us. adapter. rewrite E. split; [reflexivity |]. split; [exact M |].
  assert (Mem : forall u, In u us <-> In (User.id u, user_to_item u) (scan t)).
  { intros u. rewrite <- M, in_map_iff. split.
    - intros Hin. now exists u.
    - intros (v & Ev & Hin).
      pose proof (f_equal fst Ev) as Ei. pose proof (f_equal snd Ev) as Et.
      cbn [fst snd] in Ei, Et.
      now rewrite <- (user_of_item_inj v u Ei Et). }
  split; [| split; [| split; [| split]]].
  - rewrite <- (length_map_to_list t), <- length_take.
    fold (scan t). rewrite <- M. now rewrite length_map.
  - rewrite map_id_fst, M. unfold scan. rewrite fmap_take.
    exact (sublist_NoDup _ _ (NoDup_fst_map_to_list t) (sublist_take _ _)).
  - intros u Hin. apply Mem in Hin. exact (scan_stored t _ _ Hin).
  - split.
    + intros All.
      destruct (decide (size t <= page_length (map_to_list t))%nat)
        as [Page | Not]; [exact Page |].
      destruct (scan_leaves_out t W Not) as (u & Hu & Out).
      destruct Out. apply Mem. now apply All.
    + intros Page u Hu. apply Mem. rewrite (scan_one_page t Page).
      apply list_elem_of_In, elem_of_map_to_list. exact Hu.
  - rewrite <- M. clear E M Mem. induction us as [| u us IH]; [reflexivity |].
    cbn. destruct u as [i e n a c m]. cbn. destruct a; cbn.
    + rewrite bool_decide_eq_true_2 by reflexivity. cbn.
      destruct (items_to_users _) as [err | vs] eqn:Ev; cbn in *;
        [discriminate IH | now injection IH as ->].
    + rewrite bool_decide_eq_false_2 by discriminate. exact IH.
Qed.

Lemma find_by_email_stored (t : table) (email : string) :
  well_formed t ->
  ((find_by_email email t).1 = inr None <->
   forall u, holds t u -> User.email u <> email) /\
  ((exists u, holds t u /\ User.email u = email) ->
   exists v, (find_by_email email t).1 = inr (Some v) /\
     holds t v /\ User.email v = email).
Proof.
  intros W. adapter.
  set (hit := fun kv : UUID * item => bool_decide (a_email kv.2 = Some email)).
  assert (First : forall k it l, List.filter hit (map_to_list t) = (k, it) :: l ->
    exists v, _item_to_user k it = inr v /\ holds t v /\ User.email v = email).
  { intros k it l E.
    assert (Hin : In (k, it) (List.filter hit (map_to_list t)))
      by (rewrite E; now left).
    apply filter_In in Hin as [Hin Hit].
    apply list_elem_of_In, elem_of_map_to_list in Hin.
    destruct (complete_to_user k it (W k it Hin)) as (v & Ev & Ik & It).
    exists v. split; [exact Ev |]. unfold holds. rewrite Ik, It.
    split; [exact Hin |].
    unfold hit in Hit. apply bool_decide_eq_true_1 in Hit. cbn in Hit.
    rewrite <- It in Hit. cbn in Hit. now injection Hit. }
  assert (None_iff : List.filter hit (map_to_list t) = [] <->
    forall u, holds t u -> User.email u <> email).
  { split.
    - intros E u Hu Eq.
      assert (Hin : In (User.id u, user_to_item u) (List.filter hit (map_to_list t))).
      { apply filter_In. split.
        - apply list_elem_of_In, elem_of_map_to_list. exact Hu.
        - unfold hit. cbn. apply bool_decide_eq_true_2. now rewrite Eq. }
      rewrite E in Hin. inversion Hin.
    - intros No. destruct (List.filter hit (map_to_list t)) as [| [k it] l] eqn:E;
        [reflexivity |].
      destruct (First k it l eq_refl) as (v & _ & Hv & Ev).
      now destruct (No v Hv). }
  split.
  - rewrite <- None_iff.
    destruct (List.filter hit (map_to_list t)) as [| [k it] l] eqn:E.
    + split; reflexivity.
    + destruct (First k it l eq_refl) as (v & Ev & _ & _). rewrite Ev. cbn.
      split; discriminate.
  - intros (u & Hu & Eu).
    destruct (List.filter hit (map_to_list t)) as [| [k it] l] eqn:E.
    + now destruct (proj1 None_iff eq_refl u Hu).
    + destruct (First k it l eq_refl) as (v & Ev & Hv & Em). rewrite Ev. cbn.
      now exists v.
Qed.

(** X11.  In a table whose items are complete, [find_all] answers the
    users of the first page of the scan and no more, the code making one
    [scan()] and never following [LastEvaluatedKey]: one user per item the
    page has read, no identifier twice, each of them held by the table.
    It lists all the users the table holds exactly when one [scan()] reads
    the table to the end, and then there are as many as the table has
    items.  [find_active_users] answers the active ones among the users of
    that same page, in the same order. *)
Theorem find_all_lists_the_table (t : table) :
  well_formed t ->
  exists us : list User,
    (find_all t).1 = inr us /\
    length us = Nat.min (page_length (map_to_list t)) (size t) /\
    NoDup (List.map User.id us) /\
    (forall u, In u us -> holds t u) /\
    ((forall u, holds t u -> In u us) <-> one_page t) /\
    (one_page t -> length us = size t) /\
    (find_active_users t).1 = inr (List.filter User.is_active us).
Proof.
  intros W.
  destruct (find_all_stored t W) as (us & E & _ & Len & Nd & Sub & All & Act).
  exists us. repeat (split; [assumption |]).
  split; [| exact Act].
  intros Page. rewrite Len. unfold one_page in Page. lia.
Qed.

(** X12.  In a table whose items are complete, [find_by_email] answers
    "absent" exactly when no stored user has the e-mail, and otherwise
    answers a stored user with that e-mail. *)
Theorem find_by_email_finds (t : table) (email : string) :
  well_formed t ->
  ((find_by_email email t).1 = inr None <->
   forall u, holds t u -> User.email u <> email) /\
  ((exists u, holds t u /\ User.email u = email) ->
   exists v, (find_by_email email t).1 = inr (Some v) /\
     holds t v /\ User.email v = email).
Proof. exact (find_by_email_stored t email). Qed.

(** The store of a world in which [CreateUser] returned: the store before
    with the returned entity saved in it. *)
Lemma create_user_returned (w : World table) (email name : string) (u : User) :
  result (run (CreateUserUseCase.execute email name) w) = inr u ->
  u = created w email name /\
  world (run (CreateUserUseCase.execute email name) w) =
    after_construction w (<[User.id u := user_to_item u]> (store w)).
Proof.
  rewrite run_create_user.
  destruct (negb (Str.truthy email) || negb (Str.truthy name)); [discriminate |].
  destruct (negb (CreateUserUseCase._is_valid_email email)); [discriminate |].
  adapter.
  destruct (List.filter _ (map_to_list (store w))) as [| [k it] l].
  - cbn. intros [= <-]. split; reflexivity.
  - destruct (_item_to_user k it); discriminate.
Qed.

(** X13.  On the adapter, with a table whose items are complete: once
    [CreateUser(email, name)] has returned an entity, the table is complete
    still, [GetUser] for its identifier returns that very entity,
    [ListUsers] returns a list of users the table holds, which, when one
    [scan()] reads the table to the end, holds the new entity and has one
    user per item of the table, and another [CreateUser] for the same
    e-mail, with any name that is not empty, fails with [AlreadyExists]. *)
Theorem create_user_then_queries (w : World table) (email name : string) (u : User) :
  well_formed (store w) ->
  result (run (CreateUserUseCase.execute email name) w) = inr u ->
  let w' := world (run (CreateUserUseCase.execute email name) w) in
  well_formed (store w') /\
  result (run (GetUserUseCase.execute (User.id u)) w') = inr u /\
  (exists us, result (run GetAllUsersUseCase.execute w') = inr us /\
     (forall v, In v us -> holds (store w') v) /\
     (one_page (store w') -> In u us /\ length us = size (store w'))) /\
  (forall name2, name2 <> EmptyString ->
     result (run (CreateUserUseCase.execute email name2) w')
       = inl (UserAlreadyExistsException "Email is already registered")).
Proof.
  intros W R w'. subst w'.
  assert (Valid : Str.truthy email = true /\
                  CreateUserUseCase._is_valid_email email = true).
  { rewrite run_create_user in R.
    destruct (Str.truthy email); [| discriminate R].
    destruct (Str.truthy name); [| discriminate R].
    destruct (CreateUserUseCase._is_valid_email email); [auto | discriminate R]. }
  destruct Valid as [Email Valid].
  destruct (create_user_returned w email name u R) as [Eu ->].
  cbn [store after_construction].
  assert (Stored : holds (<[User.id u := user_to_item u]> (store w)) u)
    by apply lookup_insert_eq.
  assert (W' : well_formed (<[User.id u := user_to_item u]> (store w)))
    by exact (well_formed_save (store w) u W).
  assert (Mail : User.email u = email) by (now rewrite Eu).
  split; [exact W' |]. split; [| split].
  - rewrite run_get_user. adapter. cbn [store after_construction].
    rewrite lookup_insert_eq, item_to_user_of_item. reflexivity.
  - destruct (find_all_stored _ W') as (us & Ea & _ & Len & _ & Sub & All & _).
    exists us. rewrite run_get_all_users. cbn [store after_construction].
    destruct (find_all _) as [r s1]. cbn in Ea. subst r. cbn.
    split; [reflexivity |]. split; [exact Sub |].
    intros Page. split; [now apply All |].
    rewrite Len. unfold one_page in Page. lia.
  - intros name2 Name2. apply StrFacts.truthy_true in Name2.
    rewrite run_create_user, Email, Name2, Valid.
    cbn [negb orb store after_construction].
    destruct (find_by_email_stored _ email W') as [_ Found].
    destruct Found as (v & Ev & _ & _); [now exists u |].
    destruct (find_by_email email _) as [r s1]. cbn in Ev. subst r. reflexivity.
Qed.

End WithScan.

End AdapterFacts.

Module AdapterExamples.
Import AWSDynamoDBUserRepository Table Sample Sample2 AdapterFacts.

Lemma well_formed_with_ann : well_formed (store with_ann).
Proof. exact (well_formed_save ∅ ann well_formed_empty). Qed.

(** X7 at work: Ann saved again under her identifier, with other fields. *)
Lemma save_is_upsert_witness :
  (save ann2 (save ann ∅).2).2 = (save ann2 ∅).2 /\
  (save ann (save ann ∅).2).2 = (save ann ∅).2 /\
  size (save ann ∅).2 =
    match (∅ : table) !! User.id ann with
    | Some _ => size (∅ : table)
    | None => Datatypes.S (size (∅ : table))
    end.
Proof. apply (save_is_upsert ∅ ann ann2). reflexivity. Defined.



(** X11 at work. *)
Lemma find_all_lists_the_table_witness :
  exists us : list User,
    (find_all (store with_ann)).1 = inr us /\
    length us = size (store with_ann) /\
    NoDup (List.map User.id us) /\
    (forall u, In u us <-> holds (store with_ann) u) /\
    (find_active_users (store with_ann)).1 = inr (List.filter User.is_active us).
Proof.
  destruct (find_all_lists_the_table (store with_ann) well_formed_with_ann)
    as (us & E & _ & Nd & Sub & All & Len & Act).
  assert (Page : one_page (store with_ann))
    by (apply Nat.leb_le; vm_compute; reflexivity).
  exists us. split; [exact E |]. split; [exact (Len Page) |].
  split; [exact Nd |]. split; [| exact Act].
  intros u. split; [apply Sub | apply (proj2 All Page)].
Defined.

(** X12 at work. *)
Lemma find_by_email_finds_witness :
  ((find_by_email "a@b.com" (store with_ann)).1 = inr None <->
   forall u, holds (store with_ann) u -> User.email u <> "a@b.com") /\
  ((exists u, holds (store with_ann) u /\ User.email u = "a@b.com") ->
   exists v, (find_by_email "a@b.com" (store with_ann)).1 = inr (Some v) /\
     holds (store with_ann) v /\ User.email v = "a@b.com").
Proof. exact (find_by_email_finds (store with_ann) "a@b.com" well_formed_with_ann). Defined.

(** X13 at work: the first user of an empty table. *)
Lemma create_user_then_queries_witness :
  let u := User.Build 1%N "a@b.com" "Ann" true 1700000000000000 1700000000000001 in
  let w' := world (run (CreateUserUseCase.execute "a@b.com" "Ann") empty) in
  well_formed (store w') /\
  result (run (GetUserUseCase.execute (User.id u)) w') = inr u /\
  (exists us, result (run GetAllUsersUseCase.execute w') = inr us /\
     In u us /\ length us = size (store w')) /\
  (forall name2, name2 <> EmptyString ->
     result (run (CreateUserUseCase.execute "a@b.com" name2) w')
       = inl (UserAlreadyExistsException "Email is already registered")).
Proof.
  intros u w'.
  destruct (create_user_then_queries empty "a@b.com" "Ann" u well_formed_empty
              eq_refl) as (W & Get & (us & List & _ & Page) & Again).
  split; [exact W |]. split; [exact Get |]. split; [| exact Again].
  exists us. split; [exact List |].
  apply Page. apply Nat.leb_le. vm_compute. reflexivity.
Defined.

End AdapterExamples.

(** * The entity under sequences of mutations *)

Section MutationFacts.

Context {S : Type} `{UserRepository S}.

Lemma later_0 (w : World S) : Mutations.later w 0 = w.
Proof. destruct w. unfold Mutations.later. cbn. now rewrite Nat.add_0_r. Qed.

Lemma later_S (w : World S) (n : nat) :
  Mutations.later (Mutations.later w 1) n = Mutations.later w (Datatypes.S n).
Proof. unfold Mutations.later. cbn. f_equal. lia. Qed.

(** X14.  Any sequence of [update_name], [deactivate] and [activate] runs
    to the end without raising and touches neither the repository nor
    [uuid4]: it reads the clock once per mutation.  The identifier, the
    e-mail and [created_at] are those of the start; the name is the one of
    the last [update_name] (any string, the empty one too), the flag is the
    one set by the last [activate] or [deactivate], and [updated_at] is the
    reading taken by the last mutation. *)
Theorem mutations_compose (ms : list Entity.mutation) (w : World S) (u : User) :
  exists u' : User,
    run (Entity.mutate_all u ms) w =
      (inr u', Mutations.later w (length ms), repeat ENow (length ms)) /\
    User.id u' = User.id u /\
    User.email u' = User.email u /\
    User.created_at u' = User.created_at u /\
    User.name u' = Mutations.name_after ms (User.name u) /\
    User.is_active u' = Mutations.active_after ms (User.is_active u) /\
    User.updated_at u' =
      match ms with
      | [] => User.updated_at u
      | _ :: ms' => ticks w (tick w + length ms')
      end.
Proof.
  revert w u. induction ms as [| m ms IH]; intros w u.
  - exists u. cbn. rewrite later_0. repeat split.
  - assert (Step : exists u1,
        run (Entity.mutate u m) w = (inr u1, Mutations.later w 1, [ENow]) /\
        User.id u1 = User.id u /\ User.email u1 = User.email u /\
        User.created_at u1 = User.created_at u /\
        User.name u1 = Mutations.name_after [m] (User.name u) /\
        User.is_active u1 = Mutations.active_after [m] (User.is_active u) /\
        User.updated_at u1 = ticks w (tick w)).
    { unfold Mutations.later. rewrite Nat.add_1_r.
      destruct m; eexists; cbn; repeat split. }
    destruct Step as (u1 & R1 & I1 & E1 & C1 & N1 & A1 & U1).
    destruct (IH (Mutations.later w 1) u1) as (u' & R' & I' & E' & C' & N' & A' & U').
    exists u'.
    change (Entity.mutate_all u (m :: ms))
      with (bind (Entity.mutate u m) (fun u => Entity.mutate_all u ms)).
    rewrite run_bind, R1, R', later_S.
    split; [reflexivity |].
    rewrite I', E', C', N', A', I1, E1, C1, N1, A1.
    repeat split.
    rewrite U'. destruct ms as [| m' ms'].
    + rewrite U1. cbn. now rewrite Nat.add_0_r.
    + cbn. f_equal. lia.
Qed.

End MutationFacts.

(** * Trimming, lower-casing and searching *)

Module PyStrFacts.
Import Str PyStr.

Lemma lower_char_space c : is_space (lower_char c) = is_space c.
Proof. destruct c as [[] [] [] [] [] [] [] []]; reflexivity. Qed.

Lemma lower_char_idem c : lower_char (lower_char c) = lower_char c.
Proof. destruct c as [[] [] [] [] [] [] [] []]; reflexivity. Qed.

Lemma lower_char_at c : Ascii.eqb (lower_char c) "@" = Ascii.eqb c "@".
Proof. destruct c as [[] [] [] [] [] [] [] []]; reflexivity. Qed.

Lemma lower_char_continuation c :
  is_continuation (lower_char c) = is_continuation c.
Proof. destruct c as [[] [] [] [] [] [] [] []]; reflexivity. Qed.

Lemma lower_idem s : lower (lower s) = lower s.
Proof.
  induction s as [| c s IH]; [reflexivity |].
  cbn. now rewrite lower_char_idem, IH.
Qed.

Lemma truthy_lower s : truthy (lower s) = truthy s.
Proof. now destruct s. Qed.

Lemma contains_at_lower s : contains "@" (lower s) = contains "@" s.
Proof.
  induction s as [| c s IH]; [reflexivity |].
  cbn. now rewrite lower_char_at, IH.
Qed.

Lemma len_lower s : len (lower s) = len s.
Proof.
  induction s as [| c s IH]; [reflexivity |].
  cbn. now rewrite lower_char_continuation, IH.
Qed.

Lemma lstrip_lower s : lstrip (lower s) = lower (lstrip s).
Proof.
  induction s as [| c s IH]; [reflexivity |].
  cbn. rewrite lower_char_space. now destruct (is_space c).
Qed.

Lemma rstrip_lower s : rstrip (lower s) = lower (rstrip s).
Proof.
  induction s as [| c s IH]; [reflexivity |].
  cbn. rewrite IH, lower_char_space.
  destruct (rstrip s); cbn; [now destruct (is_space c) | reflexivity].
Qed.

Lemma strip_lower s : strip (lower s) = lower (strip s).
Proof. unfold strip. now rewrite lstrip_lower, rstrip_lower. Qed.

Lemma lstrip_head c s : is_space c = false -> lstrip (String c s) = String c s.
Proof. cbn. now intros ->. Qed.

Lemma rstrip_head c s :
  is_space c = false -> exists r, rstrip (String c s) = String c r.
Proof.
  intros Hc. cbn. destruct (rstrip s); [rewrite Hc |]; eauto.
Qed.

Lemma lstrip_idem s : lstrip (lstrip s) = lstrip s.
Proof.
  induction s as [| c s IH]; [reflexivity |].
  cbn. destruct (is_space c) eqn:Hc; [exact IH | now apply lstrip_head].
Qed.

Lemma rstrip_idem s : rstrip (rstrip s) = rstrip s.
Proof.
  induction s as [| c s IH]; [reflexivity |].
  cbn. destruct (rstrip s) as [| x r] eqn:E.
  - destruct (is_space c) eqn:Hc; [reflexivity |]. cbn. now rewrite Hc.
  - cbn. cbn in IH. now rewrite IH.
Qed.

Lemma lstrip_rstrip s : lstrip (rstrip s) = rstrip (lstrip s).
Proof.
  induction s as [| c s IH]; [reflexivity |].
  destruct (is_space c) eqn:Hc.
  - cbn [lstrip]. rewrite Hc, <- IH. cbn.
    destruct (rstrip s) as [| x r]; [now rewrite Hc | cbn; now rewrite Hc].
  - rewrite (lstrip_head c s Hc).
    destruct (rstrip_head c s Hc) as (r & ->). now apply lstrip_head.
Qed.

Lemma strip_idem s : strip (strip s) = strip s.
Proof.
  unfold strip. now rewrite lstrip_rstrip, lstrip_idem, rstrip_idem.
Qed.

Lemma contains_lstrip c s :
  is_space c = false -> contains c (lstrip s) = contains c s.
Proof.
  intros Hc. induction s as [| x s IH]; [reflexivity |].
  cbn. destruct (is_space x) eqn:Hx; [| reflexivity].
  rewrite IH. destruct (Ascii.eqb x c) eqn:E; [| reflexivity].
  apply Ascii.eqb_eq in E. congruence.
Qed.

Lemma contains_rstrip c s :
  is_space c = false -> contains c (rstrip s) = contains c s.
Proof.
  intros Hc. induction s as [| x s IH]; [reflexivity |].
  cbn. destruct (rstrip s) as [| y r] eqn:E.
  - rewrite <- IH. cbn. rewrite orb_false_r.
    destruct (is_space x) eqn:Hx; cbn; [| now rewrite orb_false_r].
    destruct (Ascii.eqb x c) eqn:Ex; [| reflexivity].
    apply Ascii.eqb_eq in Ex. congruence.
  - cbn. cbn in IH. now rewrite IH.
Qed.

Lemma contains_strip c s :
  is_space c = false -> contains c (strip s) = contains c s.
Proof.
  intros Hc. unfold strip. now rewrite contains_rstrip, contains_lstrip.
Qed.

Lemma contains_truthy c s : contains c s = true -> truthy s = true.
Proof. now destruct s. Qed.

Lemma contains_append c (a b : string) :
  contains c (a +:+ b) = contains c a || contains c b.
Proof.
  induction a as [| x a IH]; [reflexivity |].
  rewrite StrFacts.append_cons. cbn. rewrite IH. now rewrite orb_assoc.
Qed.

End PyStrFacts.

(** * The factory's validation and construction *)

Section FactoryFacts.
Import UserFactoryData.

Context {S : Type} `{UserRepository S}.

Lemma errors_nil (a b c : list string) : a ++ b ++ c = [] -> a = [] /\ b = [] /\ c = [].
Proof.
  destruct a; [| discriminate]. destruct b; [| discriminate].
  cbn. intros ->. auto.
Qed.

Lemma email_errors_nil (email : string) :
  email_errors email = [] <->
  Str.truthy email = true /\ PyStr.contains "@" email = true.
Proof.
  unfold email_errors.
  destruct (Str.truthy email), (PyStr.contains "@" email); cbn;
    split; try discriminate; auto; intros [? ?]; discriminate.
Qed.

Lemma name_errors_nil (name : string) :
  name_errors name = [] <->
  Str.truthy name = true /\ (2 <= PyStr.len name)%nat.
Proof.
  unfold name_errors. destruct (Str.truthy name); cbn [negb].
  - destruct (Nat.ltb_spec (PyStr.len name) 2) as [Lt | Ge].
    + split; [discriminate | intros [_ Ge]; lia].
    + split; auto.
  - split; [discriminate | intros [T _]; discriminate T].
Qed.

(** What [validate_user_data] returns when it returns. *)
Lemma validate_returns (d : user_data) (c : cleaned_data) :
  validate_user_data d = inr c ->
  email_errors (Str.strip (default EmptyString (d_email d))) = [] /\
  name_errors (Str.strip (default EmptyString (d_name d))) = [] /\
  is_active_errors (d_is_active d) = [] /\
  c = Cleaned (Str.lower (Str.strip (default EmptyString (d_email d))))
        (Str.strip (default EmptyString (d_name d)))
        (is_active_value (d_is_active d)).
Proof.
  unfold validate_user_data. cbv zeta.
  destruct (email_errors _ ++ name_errors _ ++ is_active_errors _) eqn:E;
    [| discriminate].
  apply errors_nil in E as (E1 & E2 & E3). intros [= <-]. auto.
Qed.

(** X15.  Cleaned data stays as it is and is accepted: when
    [validate_user_data] returns a dict for ASCII input, validating that
    dict again returns it unchanged, and [create_user_from_dict] on it
    raises nothing and builds an entity with exactly the cleaned e-mail,
    name and flag. *)
Theorem validated_data_is_accepted (w : World S) (d : user_data) (c : cleaned_data) :
  PyStr.is_ascii (default EmptyString (d_email d)) ->
  PyStr.is_ascii (default EmptyString (d_name d)) ->
  validate_user_data d = inr c ->
  validate_user_data (as_user_data c) = inr c /\
  exists u : User,
    result (run (create_user_from_dict (Some (c_email c)) (Some (c_name c))
                   (Some (c_is_active c))) w) = inr u /\
    User.email u = c_email c /\ User.name u = c_name c /\
    User.is_active u = c_is_active c.
Proof.
  intros _ _ V. apply validate_returns in V as (E1 & E2 & _ & ->).
  set (email := Str.strip (default EmptyString (d_email d))) in *.
  set (name := Str.strip (default EmptyString (d_name d))) in *.
  apply email_errors_nil in E1 as [Te Ce].
  apply name_errors_nil in E2 as [Tn Ln].
  assert (Se : Str.strip (Str.lower email) = Str.lower email)
    by (unfold email; now rewrite PyStrFacts.strip_lower, PyStrFacts.strip_idem).
  assert (Sn : Str.strip name = name)
    by (unfold name; apply PyStrFacts.strip_idem).
  split.
  - unfold validate_user_data, as_user_data. cbn [d_email d_name d_is_active
      c_email c_name c_is_active from_option id].
    rewrite Se, Sn, PyStrFacts.lower_idem.
    replace (email_errors (Str.lower email)) with (@nil string)
      by (symmetry; apply email_errors_nil;
          now rewrite PyStrFacts.truthy_lower, PyStrFacts.contains_at_lower).
    replace (name_errors name) with (@nil string)
      by (symmetry; now apply name_errors_nil).
    cbn. now destruct (d_is_active d) as [[| b |] |].
  - unfold create_user_from_dict, UserFactory.create_user.
    cbn [c_email c_name c_is_active from_option id].
    rewrite Se, Sn, PyStrFacts.truthy_lower, Te, Tn, PyStrFacts.lower_idem.
    cbn. eexists. repeat split.
Qed.

(** X16.  The use case is the stricter validator of e-mails: an address
    that [_is_valid_email] accepts raises no e-mail error in
    [validate_user_data], which asks only that the trimmed address be not
    empty and hold an [@]; with an ASCII name that raises no error either,
    the data is returned cleaned. *)
Theorem valid_email_passes_validate_user_data (email : string) :
  CreateUserUseCase._is_valid_email email = true ->
  email_errors (Str.strip email) = [] /\
  forall (name : string) (is_active : option pyval),
    PyStr.is_ascii name ->
    name_errors (Str.strip name) = [] -> is_active <> Some POther ->
    validate_user_data (UserData (Some email) (Some name) is_active) =
      inr (Cleaned (Str.lower (Str.strip email)) (Str.strip name)
             (is_active_value is_active)).
Proof.
  intros V.
  assert (At : PyStr.contains "@" email = true).
  { apply EmailFacts.is_valid_email_parts in V
      as (local & domain & tld & nl & -> & _).
    rewrite PyStrFacts.contains_append, StrFacts.append_cons. cbn.
    now rewrite orb_true_r. }
  assert (E : email_errors (Str.strip email) = []).
  { apply email_errors_nil.
    assert (C : PyStr.contains "@" (Str.strip email) = true)
      by (now rewrite PyStrFacts.contains_strip).
    split; [exact (PyStrFacts.contains_truthy _ _ C) | exact C]. }
  split; [exact E |].
  intros name is_active _ N A. unfold validate_user_data.
  cbn [d_email d_name d_is_active from_option id]. rewrite E, N.
  destruct is_active as [[| b |] |]; try reflexivity. now destruct A.
Qed.

Section WithUUID.

Variable UUID_of : string -> option UUID.

(** X17.  [create_user_with_id], when it returns: the identifier is the
    one the text stands for, the clock was read once and nothing else was
    called, and a time stamp that was left out is that one reading, so that
    with both left out [created_at] and [updated_at] are equal; on a clock
    that never runs backwards such an entity has [updated_at >= created_at]
    after any sequence of mutations. *)
Theorem create_user_with_id_stamps (w : World S) (user_id email name : string)
    (is_active : bool) (created_at updated_at : option datetime) (u : User) :
  let o := run (create_user_with_id UUID_of user_id email name is_active
                  created_at updated_at) w in
  result o = inr u ->
  UUID_of user_id = Some (User.id u) /\
  trace o = [ENow] /\
  User.created_at u = default (ticks w (tick w)) created_at /\
  User.updated_at u = default (ticks w (tick w)) updated_at /\
  (created_at = None -> updated_at = None ->
   User.created_at u = User.updated_at u /\
   (Spec.clock_monotone w ->
    forall ms, exists u',
      result (run (Entity.mutate_all u ms) (world o)) = inr u' /\
      Entity.timestamps_ordered u')).
Proof.
  intros o. subst o. unfold create_user_with_id.
  destruct (negb (Str.truthy email) || negb (Str.truthy (Str.strip email)));
    [discriminate |].
  destruct (negb (Str.truthy name) || negb (Str.truthy (Str.strip name)));
    [discriminate |].
  destruct (UUID_of user_id) as [parsed |]; [| discriminate].
  cbn. intros [= <-]. cbn.
  do 4 (split; [reflexivity |]).
  intros -> ->. cbn. split; [reflexivity |].
  intros Mono ms.
  match goal with
  | |- context [run (Entity.mutate_all ?u0 ms) ?w0] =>
      destruct (mutate_all_ordered ms w0 u0) as (u' & R & Ord & _)
  end.
  - exact Mono.
  - unfold now. cbn. apply Mono. lia.
  - unfold Entity.timestamps_ordered. cbn. lia.
  - eauto.
Qed.

End WithUUID.

End FactoryFacts.

(** * The HTTP endpoints *)

Section RouterFacts.
Import UserRouter.

Context {S : Type} `{UserRepository S}.

Variable UUID_of : string -> option UUID.

(** X18.  [POST /users] answers 201 with the entity exactly when the use
    case returns it.  It answers 400 when the use case fails with
    [InvalidInput] or with [AlreadyExists], the two alike, with one of the
    three messages of the use case as detail and without any write; and it
    answers 500 with the detail "Internal server error", not the text of
    the failure, when the store raised.  It gives no other answer. *)
Theorem post_users_answers (w : World S) (email name : string) :
  let o := create_user email name w in
  let res := result (run (CreateUserUseCase.execute email name) w) in
  match o.1.1 with
  | inr r => status r = 201%nat /\ res = inr (body r)
  | inl e =>
      (status_code e = 400%nat /\
       (Spec.invalid_input res \/ Spec.already_exists res) /\
       In (detail e) ["Email and name are required"; "Invalid email";
                      "Email is already registered"] /\
       Spec.writes o.2 = 0%nat) \/
      (status_code e = 500%nat /\ detail e = "Internal server error" /\
       exists msg, res = inl (Exception msg))
  end.
Proof.
  intros o res. subst o res. unfold create_user. rewrite run_create_user.
  destruct (negb (Str.truthy email) || negb (Str.truthy name)).
  { cbn. left. repeat split; auto. }
  destruct (negb (CreateUserUseCase._is_valid_email email)).
  { cbn. left. repeat split; auto. }
  destruct (find_by_email email (store w)) as [[msg | [existing |]] s1].
  - cbn. right. repeat split. now exists msg.
  - cbn. left. repeat split; auto 6.
  - destruct (save (created w email name) s1) as [[msg | saved] s2]; cbn.
    + right. repeat split. now exists msg.
    + split; reflexivity.
Qed.

(** X19.  [GET /users/{user_id}]: a text that is no identifier is answered
    with 400 "Invalid user ID" without any call to the repository.  For a
    text that stands for the identifier [i], the endpoint makes the one
    call [FindByID(i)] and answers 200 with the record it gets, 404 when
    the repository answers "absent", the detail naming [i] in its standard
    form, and 500 "Internal server error" when the store raised. *)
Theorem get_user_answers (w : World S) (user_id : string) :
  let o := get_user UUID_of user_id w in
  match UUID_of user_id with
  | None => o = (inl (Http 400 "Invalid user ID"), w, [])
  | Some i =>
      o.2 = [EFind_by_id i] /\
      match (find_by_id i (store w)).1 with
      | inr (Some u) => o.1.1 = inr (Answer 200 u)
      | inr None =>
          o.1.1 = inl (Http 404 ("User with ID " +:+ Uuid.str i +:+ " not found"))
      | inl _ => o.1.1 = inl (Http 500 "Internal server error")
      end
  end.
Proof.
  intros o. subst o. unfold get_user.
  destruct (UUID_of user_id) as [i |]; [| reflexivity].
  rewrite run_get_user.
  destruct (find_by_id i (store w)) as [[msg | [u |]] s1]; cbn; auto.
Qed.

(** [GET /users] against what [FindAll] answers. *)
Lemma get_users_find_all (w : World S) :
  let o := get_users w in
  o.2 = [EFind_all] /\
  match (find_all (store w)).1 with
  | inr us =>
      o.1.1 = inr (Answer 200 (ListResponse us (length us) 1 (length us)))
  | inl _ => o.1.1 = inl (Http 500 "Internal server error")
  end.
Proof.
  intros o. subst o. unfold get_users. rewrite run_get_all_users.
  destruct (find_all (store w)) as [[msg | us] s1]; cbn; auto.
Qed.

End RouterFacts.

Section RouterOnTable.
Import UserRouter AWSDynamoDBUserRepository Table.

Context `{Scan}.

(** X20.  [GET /users] on the adapter, with a table whose items are
    complete: the answer is 200 with the users of the first page of the
    scan, each of them held by the table, as a single page of the answer:
    [total] and [size] are both the number of users returned and [page]
    is 1.  That number is the number of items of the table, and every user
    the table holds is returned, exactly when one [scan()] reads the table
    to the end; the table is left as it was. *)
Theorem get_users_lists_the_table (w : World table) :
  well_formed (store w) ->
  exists us : list User,
    (get_users w).1.1 =
      inr (Answer 200 (ListResponse us (length us) 1 (length us))) /\
    length us =
      Nat.min (page_length (map_to_list (store w))) (base.size (store w)) /\
    (forall u, In u us -> holds (store w) u) /\
    ((forall u, holds (store w) u -> In u us) <-> one_page (store w)) /\
    store (get_users w).1.2 = store w.
Proof.
  intros W.
  destruct (AdapterFacts.find_all_stored (store w) W)
    as (us & E & _ & Len & _ & Sub & All & _).
  exists us. pose proof (get_users_find_all w) as [_ A].
  cbv zeta in A. rewrite E in A.
  split; [exact A |]. split; [exact Len |]. split; [exact Sub |].
  split; [exact All |].
  unfold get_users. rewrite run_get_all_users.
  now destruct (find_all (store w)) as [[msg | vs] s1] eqn:F;
    pose proof (f_equal snd F) as P; cbn in P; subst s1.
Qed.

End RouterOnTable.

(** * The file storage service *)

Section S3Facts.
Import S3.

Context {B : Type} `{S3Client B}.

(** X21.  [file_exists] never raises: it makes the one call [head_object]
    and answers [True] when that call returns and [False] when it raises,
    whatever it raises, so that a store that cannot be reached is answered
    like a key that is not there. *)
Theorem file_exists_never_raises (bucket key : string) (b : B) :
  let o := file_exists bucket key b in
  o.2 = [HeadObject key] /\
  o.1.2 = (head_object bucket key b).2 /\
  exists answer : bool,
    o.1.1 = inr answer /\
    (answer = true <-> exists x, (head_object bucket key b).1 = inr x).
Proof.
  intros o. subst o. unfold file_exists.
  destruct (head_object bucket key b) as [[e | x] b']; cbn.
  - repeat split. exists false. split; [reflexivity |].
    split; [discriminate | intros (x & E); discriminate E].
  - repeat split. exists true. split; [reflexivity |].
    split; [eauto | reflexivity].
Qed.

(** X22.  The address [upload_file] returns for a key is the one
    [get_file_url] gives for it, and [get_file_url] gives it for any key,
    stored or not, without a call to the client and without touching the
    store; an upload that fails raises and returns no address. *)
Theorem upload_url_is_get_file_url (bucket key content : string)
    (content_type : option string) (b : B) :
  (get_file_url bucket key b = (inr (url bucket key), b, [])) /\
  match (upload_fileobj content bucket key (extra_args content_type) b).1 with
  | inr _ =>
      (upload_file bucket key content content_type b).1.1
        = (get_file_url bucket key b).1.1
  | inl e =>
      (upload_file bucket key content content_type b).1.1
        = inl (Exception ("Error uploading file to S3: " +:+ e))
  end.
Proof.
  split; [reflexivity |]. unfold upload_file, get_file_url.
  now destruct (upload_fileobj content bucket key (extra_args content_type) b)
    as [[e | x] b'].
Qed.

End S3Facts.

Section S3Memory.
Import S3.


(** On an S3 that cannot be reached every key reads as missing, and an
    upload raises with the text of the failure. *)
Lemma unreachable_reads_as_missing (bucket key content : string) :
  (file_exists bucket key Unreachable).1.1 = inr false /\
  (upload_file bucket key content None Unreachable).1.1 =
    inl (Exception "Error uploading file to S3: Could not connect to the endpoint URL").
Proof. split; reflexivity. Qed.

End S3Memory.

(** * The caching factories *)

Module FactoryStateFacts.
Import Factories Factories.RepositoryFactory Factories.UseCaseFactory.

Lemma instance_of_with_instance (k : kind) (st : state) (uc : option UseCase) (n : nat) :
  instance_of k (with_instance k st uc n) = uc.
Proof. now destruct k. Qed.

Lemma instance_of_other (k k' : kind) (st : state) (uc : option UseCase) (n : nat) :
  k <> k' -> instance_of k' (with_instance k st uc n) = instance_of k' st.
Proof. destruct k, k'; intros Ne; try reflexivity; now destruct Ne. Qed.

Lemma repository_with_instance (k : kind) (st : state) (uc : option UseCase) (n : nat) :
  _user_repository_instance (with_instance k st uc n) = _user_repository_instance st.
Proof. now destruct k. Qed.

(** X24.  A use case is made once: when [create_..._use_case] has
    returned a use case, every later call returns that same object and
    changes nothing, whatever repository it is passed, so that the
    repository of a call that finds a cached use case is ignored; the
    repository passed is the one used only when nothing was cached. *)
Theorem use_case_is_cached (k : kind) (r1 r2 : option Repository)
    (st st1 : state) (uc : UseCase) :
  create_cached k r1 st = (inr uc, st1) ->
  create_cached k r2 st1 = (inr uc, st1) /\
  instance_of k st1 = Some uc /\
  (instance_of k st = None ->
   forall r, r1 = Some r -> user_repository uc = r /\ uc_addr uc = next_addr st).
Proof.
  unfold create_cached. destruct (instance_of k st) as [old |] eqn:I.
  - intros [= <- <-]. rewrite I.
    split; [reflexivity |]. split; [reflexivity |]. discriminate.
  - destruct r1 as [r |].
    + intros [= <- <-]. rewrite instance_of_with_instance.
      split; [reflexivity |]. split; [reflexivity |].
      intros _ r' [= <-]. split; reflexivity.
    + unfold get_user_repository, create_user_repository.
      destruct (_user_repository_instance st) as [r |].
      * intros [= <- <-]. rewrite instance_of_with_instance.
        split; [reflexivity |]. split; [reflexivity |].
        intros _ r' E. discriminate E.
      * destruct (configured (aws_dynamodb_table st)) as [name |]; [| discriminate].
        intros [= <- <-]. rewrite instance_of_with_instance.
        split; [reflexivity |]. split; [reflexivity |].
        intros _ r' E. discriminate E.
Qed.

(** X25.  [create_all_use_cases] from a state with no use case cached: when
    a repository is cached or a table name is configured, it returns the
    three use cases under their keys, three different objects that all
    hold one and the same repository object, which is afterwards the
    cached one; when neither is, it returns the empty dict, raises nothing
    and leaves the state as it was. *)
Theorem create_all_shares_repository (st : state) :
  (forall k, instance_of k st = None) ->
  match (get_user_repository st).1 with
  | inr r =>
      exists a b c : UseCase,
        (create_all_use_cases st).1 =
          [("create_user", a); ("get_user", b); ("get_all_users", c)] /\
        (uc_kind a, uc_kind b, uc_kind c) = (CreateUser, GetUser, GetAllUsers) /\
        user_repository a = r /\ user_repository b = r /\ user_repository c = r /\
        (uc_addr a < uc_addr b < uc_addr c)%nat /\
        _user_repository_instance (create_all_use_cases st).2 = Some r
  | inl _ => create_all_use_cases st = ([], st)
  end.
Proof.
  intros None3.
  pose proof (None3 CreateUser) as N1. pose proof (None3 GetUser) as N2.
  pose proof (None3 GetAllUsers) as N3.
  destruct st as [tbl ri cu gu ga n]. cbn in N1, N2, N3. subst cu gu ga.
  unfold create_all_use_cases, try_add, get_create_user_use_case,
    get_get_user_use_case, get_get_all_users_use_case,
    create_create_user_use_case, create_get_user_use_case,
    create_get_all_users_use_case, create_cached,
    get_user_repository, create_user_repository.
  destruct ri as [r |]; cbn.
  - do 3 eexists. repeat split; cbn; lia.
  - destruct (configured tbl) as [name |] eqn:C; cbn.
    + do 3 eexists. repeat split; cbn; lia.
    + rewrite C. cbn. rewrite C. reflexivity.
Qed.

(** X26.  [reset_all_use_cases] forgets the three use cases and keeps the
    repository: a use case made afterwards is a new object, at a new
    address, over the repository object that was cached before the reset. *)
Theorem reset_keeps_repository (st : state) (r : Repository) (k : kind) :
  _user_repository_instance st = Some r ->
  instance_of k (reset_all_use_cases st) = None /\
  _user_repository_instance (reset_all_use_cases st) = Some r /\
  exists st' : state,
    create_cached k None (reset_all_use_cases st) =
      (inr (UC (next_addr st) k r), st') /\
    instance_of k st' = Some (UC (next_addr st) k r).
Proof.
  intros R. unfold reset_all_use_cases, reset_get_all_users_use_case,
    reset_get_user_use_case, reset_create_user_use_case, create_cached,
    get_user_repository, create_user_repository.
  destruct k; cbn; rewrite R; repeat split; eexists; split; reflexivity.
Qed.

(** X27.  [create_repository_by_type] is no singleton: it neither reads
    nor writes the cached repository, it answers a repository exactly when
    the type is "dynamodb" in any mix of ASCII capitals and a table name
    that is not empty is passed or configured, and then a new object on
    every call: two calls in a row give two objects for the same table. *)
Theorem repository_by_type_is_not_cached (repository_type : string)
    (table_name : option string) (st : state) :
  let o := create_repository_by_type repository_type table_name st in
  _user_repository_instance o.2 = _user_repository_instance st /\
  (forall k, instance_of k o.2 = instance_of k st) /\
  ((exists r, o.1 = inr r) <->
   Str.lower repository_type = "dynamodb" /\
   configured (match table_name with
               | Some n => Some n
               | None => aws_dynamodb_table st
               end) <> None) /\
  forall r, o.1 = inr r ->
    exists r',
      (create_repository_by_type repository_type table_name o.2).1 = inr r' /\
      Factories.table_name r' = Factories.table_name r /\ (repo_addr r < repo_addr r')%nat.
Proof.
  intros o. subst o. unfold create_repository_by_type.
  destruct (String.eqb (Str.lower repository_type) "dynamodb") eqn:Ty.
  - apply String.eqb_eq in Ty.
    destruct (configured _) as [name |] eqn:C; cbn.
    + split; [reflexivity |]. split; [intros k; now destruct k |]. split.
      * split; [intros _; split; [exact Ty | discriminate] | eauto].
      * intros r [= <-]. rewrite C. eexists. cbn.
        split; [reflexivity |]. split; [reflexivity | cbn; lia].
    + split; [reflexivity |]. split; [reflexivity |]. split.
      * split; [intros (r & E); discriminate E | intros [_ Ne]; now destruct Ne].
      * intros r E. discriminate E.
  - apply String.eqb_neq in Ty.
    destruct (String.eqb (Str.lower repository_type) "memory"); cbn.
    all: split; [reflexivity |]; split; [reflexivity |]; split;
      [split; [intros (r & E); discriminate E | intros [E _]; now destruct Ty]
      | intros r E; discriminate E].
Qed.

End FactoryStateFacts.

(** * The factories and endpoints at work *)

Module FactoryExamples.
Import AWSDynamoDBUserRepository Sample UserFactoryData UserRouter Factories Factories.RepositoryFactory
  Factories.UseCaseFactory FactorySample.

(** X15 at work: a dict with blanks, capitals and no ["is_active"]. *)
Lemma validated_data_is_accepted_witness :
  let d := UserData (Some " Ann@B.com ") (Some " Ann ") None in
  let c := Cleaned "ann@b.com" "Ann" true in
  validate_user_data d = inr c /\
  validate_user_data (as_user_data c) = inr c /\
  exists u : User,
    result (run (create_user_from_dict (Some (c_email c)) (Some (c_name c))
                   (Some (c_is_active c))) Sample.empty) = inr u /\
    User.email u = c_email c /\ User.name u = c_name c /\
    User.is_active u = c_is_active c.
Proof.
  intros d c. split; [reflexivity |].
  apply (validated_data_is_accepted Sample.empty d c); reflexivity.
Defined.

(** X16 at work. *)
Lemma valid_email_passes_validate_user_data_witness :
  email_errors (Str.strip "a@b.com") = [] /\
  forall (name : string) (is_active : option pyval),
    PyStr.is_ascii name ->
    name_errors (Str.strip name) = [] -> is_active <> Some POther ->
    validate_user_data (UserData (Some "a@b.com") (Some name) is_active) =
      inr (Cleaned (Str.lower (Str.strip "a@b.com")) (Str.strip name)
             (is_active_value is_active)).
Proof.
  apply (valid_email_passes_validate_user_data "a@b.com").
  vm_compute. reflexivity.
Defined.

(** X17 at work: identifier 77 with both time stamps left out. *)
Lemma create_user_with_id_stamps_witness :
  let u := User.Build 77%N "a@b.com" "Ann" true 1700000000000000 1700000000000000 in
  let o := run (create_user_with_id uuid_of (Uuid.str 77%N) " A@b.com" "Ann " true
                  None None) Sample.empty in
  result o = inr u /\
  uuid_of (Uuid.str 77%N) = Some (User.id u) /\
  trace o = [ENow] /\
  User.created_at u = default (ticks Sample.empty (tick Sample.empty)) None /\
  User.updated_at u = default (ticks Sample.empty (tick Sample.empty)) None /\
  (@None datetime = None -> @None datetime = None ->
   User.created_at u = User.updated_at u /\
   (Spec.clock_monotone Sample.empty ->
    forall ms, exists u',
      result (run (Entity.mutate_all u ms) (world o)) = inr u' /\
      Entity.timestamps_ordered u')).
Proof.
  intros u o. split; [reflexivity |].
  apply (create_user_with_id_stamps uuid_of Sample.empty (Uuid.str 77%N)
           " A@b.com" "Ann " true None None u).
  reflexivity.
Defined.

(** X20 at work: the table that holds Ann. *)
Lemma get_users_lists_the_table_witness :
  exists us : list User,
    (get_users Sample.with_ann).1.1 =
      inr (Answer 200 (ListResponse us (length us) 1 (length us))) /\
    length us =
      Nat.min (page_length (map_to_list (store Sample.with_ann)))
        (base.size (store Sample.with_ann)) /\
    (forall u, In u us -> Table.holds (store Sample.with_ann) u) /\
    ((forall u, Table.holds (store Sample.with_ann) u -> In u us)
     <-> Table.one_page (store Sample.with_ann)) /\
    store (get_users Sample.with_ann).1.2 = store Sample.with_ann.
Proof.
  exact (get_users_lists_the_table Sample.with_ann
           AdapterExamples.well_formed_with_ann).
Defined.

(** X24 at work: the use case made over a repository passed in, asked for
    again without one. *)
Lemma use_case_is_cached_witness :
  let uc := UC 0 CreateUser other in
  let st1 := (create_cached CreateUser (Some other) start).2 in
  create_cached CreateUser None st1 = (inr uc, st1) /\
  instance_of CreateUser st1 = Some uc /\
  (instance_of CreateUser start = None ->
   forall r, Some other = Some r ->
     user_repository uc = r /\ uc_addr uc = next_addr start).
Proof.
  intros uc st1.
  exact (FactoryStateFacts.use_case_is_cached CreateUser (Some other) None start st1 uc eq_refl).
Defined.

(** X25 at work: the three use cases at start-up. *)
Lemma create_all_shares_repository_witness :
  exists a b c : UseCase,
    (create_all_use_cases start).1 =
      [("create_user", a); ("get_user", b); ("get_all_users", c)] /\
    (uc_kind a, uc_kind b, uc_kind c) = (CreateUser, GetUser, GetAllUsers) /\
    user_repository a = Repo 0 "users" /\
    user_repository b = Repo 0 "users" /\
    user_repository c = Repo 0 "users" /\
    (uc_addr a < uc_addr b < uc_addr c)%nat /\
    _user_repository_instance (create_all_use_cases start).2 = Some (Repo 0 "users").
Proof.
  exact (FactoryStateFacts.create_all_shares_repository start
           (fun k => match k with
                     | CreateUser => eq_refl
                     | GetUser => eq_refl
                     | GetAllUsers => eq_refl
                     end)).
Defined.

(** X26 at work: a reset after the repository was made. *)
Lemma reset_keeps_repository_witness :
  instance_of GetUser (reset_all_use_cases with_repository_cached) = None /\
  _user_repository_instance (reset_all_use_cases with_repository_cached)
    = Some (Repo 0 "users") /\
  exists st' : state,
    create_cached GetUser None (reset_all_use_cases with_repository_cached) =
      (inr (UC (next_addr with_repository_cached) GetUser (Repo 0 "users")), st') /\
    instance_of GetUser st' =
      Some (UC (next_addr with_repository_cached) GetUser (Repo 0 "users")).
Proof.
  exact (FactoryStateFacts.reset_keeps_repository with_repository_cached (Repo 0 "users") GetUser eq_refl).
Defined.

End FactoryExamples.
